(** * Femmora: session store, preference store and quiz rotation engine

    A shallow embedding of the logic of the Femmora portal
    (AuthContext.tsx, LanguageContext.tsx, BrainQuizzesScreen.tsx,
    RegistrationScreen.tsx, LoginScreen.tsx, SettingsScreen.tsx,
    Sidebar.tsx, MainLayout.tsx, App.tsx) and the properties its
    specification states.

    Conventions of the embedding:
    - a React state hook is a field of a record, an event handler is a
      function from the state before the event to the state after it;
    - [localStorage] is a finite map from keys to strings, [getItem]
      returning [null] is [None];
    - a JavaScript exception is the [Throw] case of [Completion];
    - what the browser provides ([JSON.parse], [JSON.stringify],
      [Array.prototype.sort]) is the interface [Platform]; a reference
      implementation is given in [Reference]. *)

From Stdlib Require Import ZArith QArith List String Ascii Bool Arith Lia.
From Stdlib Require Import Permutation Factorial.
From stdpp Require Import base option list strings pretty gmap.
Import ListNotations.

Set Warnings "-register-all".
Local Open Scope string_scope.
Local Open Scope nat_scope.

(** ** JavaScript values and completions *)

Inductive JsError := SyntaxError | TypeError.

Inductive Completion (A : Type) :=
| Normal (a : A)
| Throw (e : JsError).
Arguments Normal {A} a.
Arguments Throw {A} e.

#[global] Instance Completion_ret : MRet Completion := @Normal.
#[global] Instance Completion_bind : MBind Completion := fun A B k c =>
  match c with
  | Normal a => k a
  | Throw e => Throw e
  end.

(** [try { body } catch (e) { handler }] *)
Definition try_catch {A} (body : Completion A) (handler : JsError -> Completion A) : Completion A :=
  match body with
  | Normal a => Normal a
  | Throw e => handler e
  end.

(** The values [JSON.parse] can return. A number keeps its spelling: the
    code never looks at one. *)
Inductive json :=
| JNull
| JBool (b : bool)
| JNumber (lexeme : string)
| JString (s : string)
| JArray (items : list json)
| JObject (members : list (string * json)).

(** Truthiness of a string: only the empty string is falsy. *)
Definition truthy (s : string) : bool :=
  match s with
  | EmptyString => false
  | String _ _ => true
  end.

(** [s.includes(x)] on a string: [x] occurs in [s]. *)
Fixpoint str_includes (s x : string) : bool :=
  String.prefix x s ||
  match s with
  | EmptyString => false
  | String _ s' => str_includes s' x
  end.

(** Strict equality of a parsed value with a string. *)
Definition strict_eq_string (v : json) (x : string) : bool :=
  match v with
  | JString s => String.eqb s x
  | _ => false
  end.

(** [v.includes(x)] for a parsed value [v] and a string [x]: arrays and
    strings have the method, on anything else the call is a TypeError. *)
Definition js_includes (v : json) (x : string) : Completion bool :=
  match v with
  | JArray items => Normal (existsb (fun e => strict_eq_string e x) items)
  | JString s => Normal (str_includes s x)
  | _ => Throw TypeError
  end.

(** [v.push(x)]: only arrays have the method. *)
Definition js_push (v : json) (x : string) : Completion json :=
  match v with
  | JArray items => Normal (JArray (items ++ [JString x]))
  | _ => Throw TypeError
  end.

(** ** What the browser provides *)

Class Platform := {
  (** [JSON.parse]; [None] is a thrown SyntaxError. *)
  JSON_parse : string -> option json;
  JSON_stringify : json -> string;
  (** [Array.prototype.sort] called with a comparator that ignores its
      arguments: [cmp k] is what the k-th call of the comparator returns. *)
  Array_sort : forall A : Type, (nat -> Q) -> list A -> list A;
  (** Sorting rearranges the array, whatever the comparator answers. *)
  Array_sort_perm : forall A cmp (l : list A), Permutation (Array_sort A cmp l) l
}.
Arguments Array_sort {_} {A} cmp l.

Definition parseC `{Platform} (s : string) : Completion json :=
  match JSON_parse s with
  | Some v => Normal v
  | None => Throw SyntaxError
  end.

(** [localStorage] *)
Abbreviation Storage := (gmap string string).

Definition getItem (k : string) (sto : Storage) : option string := sto !! k.
Definition setItem (k v : string) (sto : Storage) : Storage := <[k:=v]> sto.
Definition removeItem (k : string) (sto : Storage) : Storage := delete k sto.

(** ** Quiz data model (types.ts, as used by BrainQuizzesScreen.tsx) *)

Module Quiz.

Record QuizAnswerOption := { text : string; isCorrect : bool }.

Inductive Difficulty := easy | medium | hard.

Record QuizQuestion := {
  id : string;
  questionText : string;
  options : list QuizAnswerOption;
  category : string;
  difficulty : Difficulty;
  explanation : string
}.

Definition SEEN_QUESTIONS_STORAGE_KEY : string := "femmoraSeenQuizQuestions".
Definition QUESTIONS_PER_BATCH : nat := 5.

Definition opt (t : string) (c : bool) : QuizAnswerOption := {| text := t; isCorrect := c |}.

(** The double-quote character, for the one question text that has it. *)
Definition dq : string := String (ascii_of_nat 34) EmptyString.

(** The static array of questions, as the module is loaded. *)
Definition allMockQuestions : list QuizQuestion := [
  (* General Knowledge *)
  {| id := "gk1";
     questionText := "What is the capital of India?";
     options := [opt "Mumbai" false; opt "New Delhi" true; opt "Kolkata" false; opt "Chennai" false];
     category := "General Knowledge"; difficulty := easy;
     explanation := "New Delhi is the capital of India." |};
  {| id := "gk2";
     questionText := "Which is the longest river in India?";
     options := [opt "Godavari" false; opt "Ganges (Ganga)" true; opt "Yamuna" false; opt "Brahmaputra" false];
     category := "General Knowledge"; difficulty := medium;
     explanation := "The Ganges (Ganga) is the longest river in India." |};
  {| id := "gk3";
     questionText := "Who is known as the " +:+ dq +:+ "Father of the Nation" +:+ dq +:+ " in India?";
     options := [opt "Jawaharlal Nehru" false; opt "Sardar Patel" false; opt "Mahatma Gandhi" true; opt "B.R. Ambedkar" false];
     category := "General Knowledge"; difficulty := easy;
     explanation := "Mahatma Gandhi is known as the Father of the Nation in India." |};
  {| id := "gk4";
     questionText := "How many states are there in India (as of 2023)?";
     options := [opt "28" true; opt "29" false; opt "30" false; opt "27" false];
     category := "General Knowledge"; difficulty := medium;
     explanation := "India has 28 states and 8 Union Territories." |};
  {| id := "gk5";
     questionText := "What is the national animal of India?";
     options := [opt "Lion" false; opt "Tiger" true; opt "Elephant" false; opt "Leopard" false];
     category := "General Knowledge"; difficulty := easy;
     explanation := "The Royal Bengal Tiger is the national animal of India." |};
  (* Logic *)
  {| id := "logic1";
     questionText := "Which number comes next in the series: 2, 4, 6, 8, __?";
     options := [opt "9" false; opt "10" true; opt "12" false; opt "7" false];
     category := "Logic"; difficulty := easy;
     explanation := "The series increases by 2 each time. So, 8 + 2 = 10." |};
  {| id := "logic2";
     questionText := "If all Bloops are Razzies and all Razzies are Lazzies, are all Bloops definitely Lazzies?";
     options := [opt "Yes" true; opt "No" false; opt "Maybe" false; opt "Not enough information" false];
     category := "Logic"; difficulty := medium;
     explanation := "This is a transitive property. If A=B and B=C, then A=C." |};
  {| id := "logic3";
     questionText := "A B C D E. Which letter is two to the right of the letter immediately to the left of D?";
     options := [opt "C" false; opt "D" false; opt "E" true; opt "B" false];
     category := "Logic"; difficulty := medium;
     explanation := "Letter to the left of D is C. Two letters to the right of C is E." |};
  {| id := "logic4";
     questionText := "A mother is twice as old as her daughter. If the mother is 40, how old is the daughter?";
     options := [opt "10" false; opt "20" true; opt "30" false; opt "15" false];
     category := "Logic"; difficulty := easy;
     explanation := "If the mother is twice as old, the daughter is half her age. 40 / 2 = 20." |};
  {| id := "logic5";
     questionText := "Which shape usually has the most sides: Triangle, Square, Pentagon, Hexagon?";
     options := [opt "Triangle (3)" false; opt "Square (4)" false; opt "Pentagon (5)" false; opt "Hexagon (6)" true];
     category := "Logic"; difficulty := easy;
     explanation := "A hexagon has 6 sides, which is more than a triangle (3), square (4), or pentagon (5)." |};
  (* Math *)
  {| id := "math1";
     questionText := "What is 5 + 7?";
     options := [opt "10" false; opt "12" true; opt "11" false; opt "13" false];
     category := "Math"; difficulty := easy;
     explanation := "5 + 7 equals 12." |};
  {| id := "math2";
     questionText := "How many sides does a triangle have?";
     options := [opt "Three" true; opt "Four" false; opt "Five" false; opt "Six" false];
     category := "Math"; difficulty := easy;
     explanation := "A triangle is a polygon with three edges and three vertices." |};
  {| id := "math3";
     questionText := "What is 2 + 2 * 2?";
     options := [opt "8" false; opt "6" true; opt "4" false; opt "10" false];
     category := "Math"; difficulty := medium;
     explanation := "Order of operations (multiplication first): 2 * 2 = 4, then 2 + 4 = 6." |};
  {| id := "math4";
     questionText := "If you have 3 apples and you give away 1, how many do you have left?";
     options := [opt "1" false; opt "2" true; opt "3" false; opt "0" false];
     category := "Math"; difficulty := easy;
     explanation := "3 - 1 = 2." |};
  {| id := "math5";
     questionText := "What is 10 divided by 2?";
     options := [opt "2" false; opt "5" true; opt "8" false; opt "4" false];
     category := "Math"; difficulty := easy;
     explanation := "10 / 2 = 5." |};
  (* Basic Science *)
  {| id := "sci1";
     questionText := "What do plants need to grow, apart from water and soil?";
     options := [opt "Moonlight" false; opt "Sunlight" true; opt "Electricity" false; opt "Wind" false];
     category := "Basic Science"; difficulty := easy;
     explanation := "Plants use sunlight for photosynthesis to make their food." |};
  {| id := "sci2";
     questionText := "What is H2O commonly known as?";
     options := [opt "Salt" false; opt "Sugar" false; opt "Water" true; opt "Air" false];
     category := "Basic Science"; difficulty := easy;
     explanation := "H2O is the chemical formula for water." |};
  {| id := "sci3";
     questionText := "Which planet is known as the Red Planet?";
     options := [opt "Jupiter" false; opt "Mars" true; opt "Venus" false; opt "Saturn" false];
     category := "Basic Science"; difficulty := medium;
     explanation := "Mars is called the Red Planet due to its reddish appearance from iron oxide on its surface." |};
  {| id := "sci4";
     questionText := "What pulls objects towards the Earth?";
     options := [opt "Magnetism" false; opt "Gravity" true; opt "Friction" false; opt "Wind" false];
     category := "Basic Science"; difficulty := easy;
     explanation := "Gravity is the force that attracts objects with mass towards each other, like Earth pulling objects down." |};
  {| id := "sci5";
     questionText := "How many colors are in a rainbow typically?";
     options := [opt "5" false; opt "7" true; opt "9" false; opt "3" false];
     category := "Basic Science"; difficulty := easy;
     explanation := "A rainbow has 7 colors: Red, Orange, Yellow, Green, Blue, Indigo, and Violet (ROYGBIV)." |}
].

(** ** The quiz screen (BrainQuizzesScreen.tsx) *)

Inductive QuizState := idle | active | finished.
Inductive AnswerStatus := correct | incorrect | unanswered.

(** The state hooks of the component. *)
Record Screen := {
  quizState : QuizState;
  currentQuestions : list QuizQuestion;
  currentQuestionIndex : nat;
  score : nat;
  selectedAnswer : option QuizAnswerOption;
  answerStatus : AnswerStatus
}.

(** What the handlers of the screen read and write: [localStorage], the
    module-level array [allMockQuestions] (JavaScript's [sort] works in
    place, so its order is state), and the hooks. *)
Record World := {
  localStorage : Storage;
  pool : list QuizQuestion;
  screen : Screen
}.

Definition initialScreen : Screen :=
  {| quizState := idle; currentQuestions := []; currentQuestionIndex := 0;
     score := 0; selectedAnswer := None; answerStatus := unanswered |}.

Definition initialWorld (sto : Storage) : World :=
  {| localStorage := sto; pool := allMockQuestions; screen := initialScreen |}.

(** [array.filter(f)] for a callback that can throw. *)
Fixpoint filterC {A} (f : A -> Completion bool) (l : list A) : Completion (list A) :=
  match l with
  | [] => mret []
  | x :: l' =>
      b ← f x;
      r ← filterC f l';
      mret (if b : bool then x :: r else r)
  end.

(** The array a function returns: a new one, or [allMockQuestions] itself. *)
Inductive ArrayRef :=
| NewArray (a : list QuizQuestion)
| TheMockQuestions.

Definition deref (r : ArrayRef) (w : World) : list QuizQuestion :=
  match r with
  | NewArray a => a
  | TheMockQuestions => pool w
  end.

Section Engine.
Context `{Platform}.

(** Lines 165-174: [seenIds] after the [try]/[catch]. *)
Definition readSeenIds (sto : Storage) : Completion json :=
  try_catch
    (match getItem SEEN_QUESTIONS_STORAGE_KEY sto with
     | Some stored => if truthy stored then parseC stored else mret (JArray [])
     | None => mret (JArray [])
     end)
    (fun _ => mret (JArray [])).

(** Line 176: [q => !seenIds.includes(q.id)]. *)
Definition notSeen (seenIds : json) (q : QuizQuestion) : Completion bool :=
  b ← js_includes seenIds (id q); mret (negb b).

Definition getUnseenQuestions (w : World) : Completion (ArrayRef * Storage) :=
  seenIds ← readSeenIds (localStorage w);
  unseen ← filterC (notSeen seenIds) (pool w);
  if length unseen <? QUESTIONS_PER_BATCH
  then mret (TheMockQuestions, removeItem SEEN_QUESTIONS_STORAGE_KEY (localStorage w))
  else mret (NewArray unseen, localStorage w).

(** Line 188: the comparator [() => 0.5 - Math.random()]; [random k] is
    the k-th number [Math.random] returns. *)
Definition comparator (random : nat -> Q) : nat -> Q :=
  fun k => ((1 # 2) - random k)%Q.

Definition shuffle (random : nat -> Q) (a : list QuizQuestion) : list QuizQuestion :=
  Array_sort (comparator random) a.

(** A handler that throws has changed nothing when it does: every
    statement that can throw comes before the first write. *)
Definition startNewQuiz (random : nat -> Q) (w : World) : Completion World :=
  '(unseenQuestions, sto) ← getUnseenQuestions w;
  let shuffled := shuffle random (deref unseenQuestions w) in
  let newBatch := firstn QUESTIONS_PER_BATCH shuffled in
  mret {| localStorage := sto;
          pool := match unseenQuestions with
                  | TheMockQuestions => shuffled
                  | NewArray _ => pool w
                  end;
          screen := {| quizState := active; currentQuestions := newBatch;
                       currentQuestionIndex := 0; score := 0;
                       selectedAnswer := None; answerStatus := unanswered |} |}.

Definition handleAnswerSelect (option : QuizAnswerOption) (s : Screen) : Screen :=
  match answerStatus s with
  | unanswered =>
      {| quizState := quizState s; currentQuestions := currentQuestions s;
         currentQuestionIndex := currentQuestionIndex s; score := score s;
         selectedAnswer := Some option; answerStatus := answerStatus s |}
  | _ => s
  end.

Definition handleSubmitAnswer (s : Screen) : Screen :=
  match selectedAnswer s with
  | None => s
  | Some a =>
      if isCorrect a
      then {| quizState := quizState s; currentQuestions := currentQuestions s;
              currentQuestionIndex := currentQuestionIndex s; score := score s + 1;
              selectedAnswer := selectedAnswer s; answerStatus := correct |}
      else {| quizState := quizState s; currentQuestions := currentQuestions s;
              currentQuestionIndex := currentQuestionIndex s; score := score s;
              selectedAnswer := selectedAnswer s; answerStatus := incorrect |}
  end.

(** Lines 226-232 *)
Definition advance (s : Screen) : Screen :=
  if (Z.of_nat (currentQuestionIndex s) <? Z.of_nat (length (currentQuestions s)) - 1)%Z
  then {| quizState := quizState s; currentQuestions := currentQuestions s;
          currentQuestionIndex := currentQuestionIndex s + 1; score := score s;
          selectedAnswer := None; answerStatus := unanswered |}
  else {| quizState := finished; currentQuestions := currentQuestions s;
          currentQuestionIndex := currentQuestionIndex s; score := score s;
          selectedAnswer := selectedAnswer s; answerStatus := answerStatus s |}.

Definition handleNextQuestion (w : World) : Completion World :=
  let s := screen w in
  let seenIdsStr := getItem SEEN_QUESTIONS_STORAGE_KEY (localStorage w) in
  seenIds ← match seenIdsStr with
            | Some str => if truthy str then parseC str else mret (JArray [])
            | None => mret (JArray [])
            end;
  currentQuestion ← match currentQuestions s !! currentQuestionIndex s with
                    | Some q => mret q
                    | None => Throw TypeError
                    end;
  let currentQuestionId := id currentQuestion in
  seen ← js_includes seenIds currentQuestionId;
  sto ← (if negb seen
         then pushed ← js_push seenIds currentQuestionId;
              mret (setItem SEEN_QUESTIONS_STORAGE_KEY (JSON_stringify pushed) (localStorage w))
         else mret (localStorage w));
  mret {| localStorage := sto; pool := pool w; screen := advance s |}.

(** *** What the rendered screen lets the user do (lines 235-317) *)

Inductive Event :=
| ClickStart            (* "start quiz" and "play again" *)
| ClickOption (i : nat) (* the i-th answer button *)
| ClickSubmit
| ClickNext.

Definition isUnanswered (st : AnswerStatus) : bool :=
  match st with unanswered => true | _ => false end.

(** The option behind the i-th answer button of the current question. *)
Definition optionAt (s : Screen) (i : nat) : option QuizAnswerOption :=
  q ← currentQuestions s !! currentQuestionIndex s; options q !! i.

(** Is the control rendered and not disabled? *)
Definition offered (s : Screen) (e : Event) : bool :=
  match quizState s, e with
  | idle, ClickStart | finished, ClickStart => true
  | active, ClickOption i => isUnanswered (answerStatus s) && bool_decide (is_Some (optionAt s i))
  | active, ClickSubmit => isUnanswered (answerStatus s) && bool_decide (is_Some (selectedAnswer s))
  | active, ClickNext => negb (isUnanswered (answerStatus s))
  | _, _ => false
  end.

Definition withScreen (w : World) (s : Screen) : World :=
  {| localStorage := localStorage w; pool := pool w; screen := s |}.

(** One user event on the rendered screen. *)
Definition dispatch (random : nat -> Q) (e : Event) (w : World) : Completion World :=
  if offered (screen w) e then
    match e with
    | ClickStart => startNewQuiz random w
    | ClickOption i =>
        match optionAt (screen w) i with
        | Some o => mret (withScreen w (handleAnswerSelect o (screen w)))
        | None => mret w
        end
    | ClickSubmit => mret (withScreen w (handleSubmitAnswer (screen w)))
    | ClickNext => handleNextQuestion w
    end
  else mret w.

End Engine.

End Quiz.

(** ** The session store (AuthContext.tsx) *)

Module Auth.

Definition USER_STORAGE_KEY : string := "femmoraUser".

(** The state hooks of [AuthProvider]. [user] is whatever value was set:
    [JNull] is [null]. *)
Record AuthState := {
  isAuthenticated : bool;
  user : json;
  loading : bool
}.

(** Lines 31-33: the state a freshly started provider has. *)
Definition initialState : AuthState :=
  {| isAuthenticated := false; user := JNull; loading := true |}.

Section Store.
Context `{Platform}.

(** Lines 36-53: the effect that runs once when the provider mounts. *)
Definition mount (st : AuthState) (sto : Storage) : AuthState * Storage :=
  let storedUser := getItem USER_STORAGE_KEY sto in
  let '(st1, sto1) :=
    match storedUser with
    | Some stored =>
        if truthy stored then
          match JSON_parse stored with
          | Some parsedUser =>
              ({| isAuthenticated := true; user := parsedUser; loading := loading st |}, sto)
          | None => (st, removeItem USER_STORAGE_KEY sto)
          end
        else (st, sto)
    | None => (st, sto)
    end in
  ({| isAuthenticated := isAuthenticated st1; user := user st1; loading := false |}, sto1).

(** A process restart: a new provider over the storage left behind. *)
Definition restart (sto : Storage) : AuthState * Storage := mount initialState sto.

(** Lines 59-64 *)
Definition login (userData : json) (st : AuthState) (sto : Storage) : AuthState * Storage :=
  ({| isAuthenticated := true; user := userData; loading := loading st |},
   setItem USER_STORAGE_KEY (JSON_stringify userData) sto).

(** Lines 69-74 *)
Definition logout (st : AuthState) (sto : Storage) : AuthState * Storage :=
  ({| isAuthenticated := false; user := JNull; loading := loading st |},
   removeItem USER_STORAGE_KEY sto).

End Store.

End Auth.

(** ** The preference store (LanguageContext.tsx) *)

Module Language.

Definition LANGUAGE_STORAGE_KEY : string := "femmoraLanguage".

(** Modelled from the spec: the enumeration [Language] of types.ts with
    its three codes, each persisted as its raw value. *)
Definition EN : string := "EN".
Definition HI : string := "HI".
Definition TA : string := "TA".

Definition isValidCode (c : string) : bool :=
  String.eqb c EN || String.eqb c HI || String.eqb c TA.

(** Lines 31-34: the initial value of the [language] hook. *)
Definition initialLanguage (sto : Storage) : string :=
  match getItem LANGUAGE_STORAGE_KEY sto with
  | Some storedLang => if truthy storedLang then storedLang else EN
  | None => EN
  end.

(** Lines 40-43: the new value of the hook and the storage. *)
Definition setLanguage (lang : string) (sto : Storage) : string * Storage :=
  (lang, setItem LANGUAGE_STORAGE_KEY lang sto).

Section Translate.
(** The translation table [UI_TEXT] of constants.ts, key by key an object
    from language code to text. Property lookup is lookup among the
    entries the table itself has. *)
Variable UI_TEXT : gmap string (gmap string string).



End Translate.

End Language.

(** ** The application around the stores (App.tsx) *)

Module App.

(** What a screen's handler asks of the hooks it got from the contexts
    and the router, in the order of the calls. *)
Inductive Call :=
| CallLogin (userData : json)
| CallNavigate (to : string).

Record AppState := {
  auth : Auth.AuthState;
  storage : Storage;
  location : string
}.

Section Perform.
Context `{Platform}.

Definition perform (c : Call) (a : AppState) : AppState :=
  match c with
  | CallLogin userData =>
      let '(st, sto) := Auth.login userData (auth a) (storage a) in
      {| auth := st; storage := sto; location := location a |}
  | CallNavigate to =>
      {| auth := auth a; storage := storage a; location := to |}
  end.

Definition performAll (cs : list Call) (a : AppState) : AppState :=
  fold_left (fun a c => perform c a) cs a.

End Perform.

(** What a route element renders to. *)
Inductive Rendered :=
| Navigate (to : string)
| Children.

(** Lines 47-56; [LOGIN] is [APP_ROUTES.LOGIN] of constants.ts. *)
Definition ProtectedRoute (LOGIN : string) (st : Auth.AuthState) : Rendered :=
  if negb (Auth.isAuthenticated st) then Navigate LOGIN else Children.

End App.

(** ** The registration screen (RegistrationScreen.tsx) *)

Module Registration.

(** The state hooks of the form. *)
Record Form := {
  name : string;
  email : string;
  password : string;
  confirmPassword : string;
  error : string
}.

(** Lines 19-24 *)
Definition initialForm : Form :=
  {| name := ""; email := ""; password := ""; confirmPassword := ""; error := "" |}.

Definition setError (msg : string) (f : Form) : Form :=
  {| name := name f; email := email f; password := password f;
     confirmPassword := confirmPassword f; error := msg |}.

(** Line 52: [{ id: Date.now().toString(), name, email }]. *)
Definition mockUser (now : N) (f : Form) : json :=
  JObject [("id", JString (pretty now)); ("name", JString (name f)); ("email", JString (email f))].

(** Lines 34-57. [now] is what [Date.now()] returns, [HOME] is
    [APP_ROUTES.HOME] of constants.ts. *)
Definition handleSubmit (HOME : string) (now : N) (f : Form) : Form * list App.Call :=
  if negb (String.eqb (password f) (confirmPassword f)) then
    (setError "Passwords do not match." f, [])
  else if negb (truthy (name f)) || negb (truthy (email f)) || negb (truthy (password f)) then
    (setError "Please fill in all fields." f, [])
  else
    (setError "" f, [App.CallLogin (mockUser now f); App.CallNavigate HOME]).

End Registration.

(** ** The login screen (LoginScreen.tsx) *)

Module Login.

Record Form := {
  email : string;
  password : string;
  error : string
}.

Definition setError (msg : string) (f : Form) : Form :=
  {| email := email f; password := password f; error := msg |}.

Definition demoUser : json :=
  JObject [("id", JString "1"); ("name", JString "Demo User"); ("email", JString "user@example.com")].

(** Lines 31-44 *)
Definition handleSubmit (HOME : string) (f : Form) : Form * list App.Call :=
  let f := setError "" f in
  if String.eqb (email f) "user@example.com" && String.eqb (password f) "password" then
    (f, [App.CallLogin demoUser; App.CallNavigate HOME])
  else
    (setError "Invalid email or password. (Hint: user@example.com / password)" f, []).

End Login.

(** ** The settings screen (SettingsScreen.tsx, the second file of
    src/screens/WelcomeScreen.tsx, whose line numbers are used) *)

Module Settings.

Definition NOTIFICATIONS_STORAGE_KEY : string := "femmoraNotifications".

(** [String(b)] for a boolean. *)
Definition String_of_bool (b : bool) : string := if b then "true" else "false".

(** Lines 73-76: the initial value of the [notificationsEnabled] hook. *)
Definition initialNotificationsEnabled (sto : Storage) : bool :=
  match getItem NOTIFICATIONS_STORAGE_KEY sto with
  | Some v => String.eqb v "true"
  | None => false
  end.

(** Lines 89-95, without the alert. *)
Definition handleNotificationToggle (notificationsEnabled : bool) (sto : Storage) : bool * Storage :=
  let newSetting := negb notificationsEnabled in
  (newSetting, setItem NOTIFICATIONS_STORAGE_KEY (String_of_bool newSetting) sto).

(** Lines 82-84 *)
Definition handleLanguageChange (value : string) (sto : Storage) : string * Storage :=
  Language.setLanguage value sto.

End Settings.

(** ** The layout and its sidebar (MainLayout.tsx, Sidebar.tsx) *)

Module Sidebar.

(** MainLayout.tsx, lines 23-25: the new value of [isSidebarOpen]. *)
Definition toggleSidebar (isSidebarOpen : bool) : bool := negb isSidebarOpen.

(** Sidebar.tsx, lines 66-72. [LOGIN] is [APP_ROUTES.LOGIN] of
    constants.ts, [innerWidth] is [window.innerWidth]. *)
Definition handleLogout (LOGIN : string) (innerWidth : Z)
    (isSidebarOpen : bool) (a : App.AppState) : App.AppState * bool :=
  let '(st, sto) := Auth.logout (App.auth a) (App.storage a) in
  ({| App.auth := st; App.storage := sto; App.location := LOGIN |},
   if (innerWidth <? 768)%Z then toggleSidebar isSidebarOpen else isSidebarOpen).

(** Sidebar.tsx, lines 77-83 *)
Definition handleLanguageChange (value : string) (sto : Storage) : string * Storage :=
  Language.setLanguage value sto.

End Sidebar.

(** ** A reference implementation of the platform *)

Module Reference.

Definition isWhitespace (c : ascii) : bool :=
  match nat_of_ascii c with
  | 32 | 9 | 10 | 13 => true
  | _ => false
  end.

Fixpoint skipWhitespace (s : string) : string :=
  match s with
  | String c s' => if isWhitespace c then skipWhitespace s' else s
  | EmptyString => s
  end.

Definition isDigit (c : ascii) : bool :=
  let n := nat_of_ascii c in (48 <=? n) && (n <=? 57).

Definition hexValue (c : ascii) : option N :=
  let n := N_of_ascii c in
  if ((48 <=? n) && (n <=? 57))%N then Some (n - 48)%N
  else if ((65 <=? n) && (n <=? 70))%N then Some (n - 55)%N
  else if ((97 <=? n) && (n <=? 102))%N then Some (n - 87)%N
  else None.

(** The digits at the front of [s], and what follows them. *)
Fixpoint spanDigits (s : string) : string * string :=
  match s with
  | String c s' =>
      if isDigit c then let '(d, r) := spanDigits s' in (String c d, r) else (EmptyString, s)
  | EmptyString => (EmptyString, s)
  end.

(** [-? int frac? exp?]: the spelling of the number and the rest. *)
Definition parseNumber (s : string) : option (string * string) :=
  let '(sign, s1) :=
    match s with
    | String "-"%char r => (String "-"%char EmptyString, r)
    | _ => (EmptyString, s)
    end in
  let '(int, s2) := spanDigits s1 in
  match int with
  | EmptyString => None
  | String d ds =>
      if Ascii.eqb d "0"%char && negb (String.eqb ds EmptyString) then None else
      let fracPart :=
        match s2 with
        | String "."%char r =>
            let '(fr, s3) := spanDigits r in
            if String.eqb fr EmptyString then None else Some (String "."%char fr, s3)
        | _ => Some (EmptyString, s2)
        end in
      match fracPart with
      | None => None
      | Some (fr, s3) =>
          let expPart :=
            match s3 with
            | String e r =>
                if Ascii.eqb e "e"%char || Ascii.eqb e "E"%char then
                  let '(sg, r1) :=
                    match r with
                    | String g r' =>
                        if Ascii.eqb g "+"%char || Ascii.eqb g "-"%char
                        then (String g EmptyString, r') else (EmptyString, r)
                    | EmptyString => (EmptyString, r)
                    end in
                  let '(ex, s4) := spanDigits r1 in
                  if String.eqb ex EmptyString then None
                  else Some (String e (sg ++ ex), s4)%string
                else Some (EmptyString, s3)
            | EmptyString => Some (EmptyString, s3)
            end in
          match expPart with
          | None => None
          | Some (ex, s4) => Some ((sign ++ int ++ fr ++ ex)%string, s4)
          end
      end
  end.

(** The UTF-8 bytes of a code point. *)
Definition utf8 (n : N) : string :=
  let b (k : N) := String (ascii_of_N k) EmptyString in
  (if n <? 128 then b n
   else if n <? 2048 then b (192 + n / 64) ++ b (128 + n mod 64)
   else if n <? 65536 then
     b (224 + n / 4096) ++ b (128 + (n / 64) mod 64) ++ b (128 + n mod 64)
   else
     b (240 + n / 262144) ++ b (128 + (n / 4096) mod 64)
       ++ b (128 + (n / 64) mod 64) ++ b (128 + n mod 64))%N%string.

(** Four hexadecimal digits at the front of [s]. *)
Definition parseHex4 (s : string) : option (N * string) :=
  match s with
  | String a (String b (String c (String d r))) =>
      match hexValue a, hexValue b, hexValue c, hexValue d with
      | Some x, Some y, Some z, Some w => Some ((((x * 16 + y) * 16 + z) * 16 + w)%N, r)
      | _, _, _, _ => None
      end
  | _ => None
  end.

(** The characters of a string literal after its opening quote, up to
    and with the closing one. A pair of surrogate escapes is one code
    point. *)
Fixpoint parseChars (fuel : nat) (s : string) : option (string * string) :=
  match fuel with
  | 0 => None
  | S fuel' =>
      match s with
      | EmptyString => None
      | String c r =>
          if Ascii.eqb c (ascii_of_nat 34) then Some (EmptyString, r)
          else if nat_of_ascii c <? 32 then None
          else if Ascii.eqb c "\"%char then
            match r with
            | String e r' =>
                let plain (k : nat) :=
                  match parseChars fuel' r' with
                  | Some (t, rest) => Some (String (ascii_of_nat k) t, rest)
                  | None => None
                  end in
                match nat_of_ascii e with
                | 34 => plain 34     (* quote *)
                | 92 => plain 92     (* backslash *)
                | 47 => plain 47     (* slash *)
                | 98 => plain 8      (* b *)
                | 102 => plain 12    (* f *)
                | 110 => plain 10    (* n *)
                | 114 => plain 13    (* r *)
                | 116 => plain 9     (* t *)
                | 117 =>             (* u *)
                    match parseHex4 r' with
                    | Some (hi, r2) =>
                        let single :=
                          match parseChars fuel' r2 with
                          | Some (t, rest) => Some ((utf8 hi ++ t)%string, rest)
                          | None => None
                          end in
                        if ((55296 <=? hi) && (hi <? 56320))%N then
                          match r2 with
                          | String "\"%char (String "u"%char r3) =>
                              match parseHex4 r3 with
                              | Some (lo, r4) =>
                                  if ((56320 <=? lo) && (lo <? 57344))%N then
                                    match parseChars fuel' r4 with
                                    | Some (t, rest) =>
                                        Some ((utf8 (65536 + (hi - 55296) * 1024 + (lo - 56320))%N ++ t)%string, rest)
                                    | None => None
                                    end
                                  else single
                              | None => single
                              end
                          | _ => single
                          end
                        else single
                    | None => None
                    end
                | _ => None
                end
            | EmptyString => None
            end
          else
            match parseChars fuel' r with
            | Some (t, rest) => Some (String c t, rest)
            | None => None
            end
      end
  end.

Definition parseString (s : string) : option (string * string) :=
  parseChars (S (String.length s)) s.

(** Does [s] start with [p]? Then what follows. *)
Fixpoint stripPrefix (p s : string) : option string :=
  match p with
  | EmptyString => Some s
  | String a p' =>
      match s with
      | String b s' => if Ascii.eqb a b then stripPrefix p' s' else None
      | EmptyString => None
      end
  end.

(** An object keeps one member per key, with the value given last. *)
Fixpoint setMember (k : string) (v : json) (ms : list (string * json)) : list (string * json) :=
  match ms with
  | [] => [(k, v)]
  | (k', v') :: ms' => if String.eqb k k' then (k, v) :: ms' else (k', v') :: setMember k v ms'
  end.

(** A value, the elements of an array after its bracket, the members of
    an object after its brace; each with what follows it. *)
Fixpoint parseValue (fuel : nat) (s : string) : option (json * string) :=
  match fuel with
  | 0 => None
  | S fuel' =>
      match skipWhitespace s with
      | EmptyString => None
      | String c r =>
          match nat_of_ascii c with
          | 110 => r' ← stripPrefix "ull" r; Some (JNull, r')
          | 116 => r' ← stripPrefix "rue" r; Some (JBool true, r')
          | 102 => r' ← stripPrefix "alse" r; Some (JBool false, r')
          | 34 => '(t, r') ← parseString r; Some (JString t, r')
          | 91 =>
              match skipWhitespace r with
              | String "]"%char r' => Some (JArray [], r')
              | _ => '(items, r') ← parseElements fuel' r; Some (JArray items, r')
              end
          | 123 =>
              match skipWhitespace r with
              | String "}"%char r' => Some (JObject [], r')
              | _ => '(ms, r') ← parseMembers fuel' [] r; Some (JObject ms, r')
              end
          | _ => '(lexeme, r') ← parseNumber (String c r); Some (JNumber lexeme, r')
          end
      end
  end
with parseElements (fuel : nat) (s : string) : option (list json * string) :=
  match fuel with
  | 0 => None
  | S fuel' =>
      '(v, r) ← parseValue fuel' s;
      match skipWhitespace r with
      | String "]"%char r' => Some ([v], r')
      | String ","%char r' => '(vs, r2) ← parseElements fuel' r'; Some (v :: vs, r2)
      | _ => None
      end
  end
with parseMembers (fuel : nat) (acc : list (string * json)) (s : string)
  : option (list (string * json) * string) :=
  match fuel with
  | 0 => None
  | S fuel' =>
      match skipWhitespace s with
      | String c r =>
          if Ascii.eqb c (ascii_of_nat 34) then
            '(k, r1) ← parseString r;
            match skipWhitespace r1 with
            | String ":"%char r2 =>
                '(v, r3) ← parseValue fuel' r2;
                let acc' := setMember k v acc in
                match skipWhitespace r3 with
                | String "}"%char r' => Some (acc', r')
                | String ","%char r' => parseMembers fuel' acc' r'
                | _ => None
                end
            | _ => None
            end
          else None
      | EmptyString => None
      end
  end.

(** [JSON.parse]: one value, with nothing but white space around it. *)
Definition parse (s : string) : option json :=
  '(v, r) ← parseValue (2 * String.length s + 2) s;
  match skipWhitespace r with
  | EmptyString => Some v
  | String _ _ => None
  end.

Definition hexDigit (n : nat) : ascii :=
  ascii_of_nat (if n <? 10 then 48 + n else 87 + n).

(** The characters of a string as [JSON.stringify] quotes them. *)
Fixpoint quoteChars (s : string) : string :=
  match s with
  | EmptyString => EmptyString
  | String c s' =>
      let n := nat_of_ascii c in
      let bs (e : string) : string := String "\"%char e in
      let quoted : string :=
        match n with
        | 34 => bs (String c EmptyString)
        | 92 => bs (String c EmptyString)
        | 8 => bs "b"
        | 12 => bs "f"
        | 10 => bs "n"
        | 13 => bs "r"
        | 9 => bs "t"
        | _ =>
            if n <? 32
            then bs (String "u"%char (String "0"%char (String "0"%char
                   (String (hexDigit (n / 16)) (String (hexDigit (n mod 16)) EmptyString)))))
            else String c EmptyString
        end in
      (quoted ++ quoteChars s')%string
  end.

Definition quote (s : string) : string :=
  (String (ascii_of_nat 34) (quoteChars s) ++ String (ascii_of_nat 34) EmptyString)%string.

Definition commaSep (parts : list string) : string :=
  match parts with
  | [] => EmptyString
  | p :: ps => fold_left (fun acc q => (acc ++ "," ++ q)%string) ps p
  end.

(** [JSON.stringify] of a parsed value. A number is written as it was
    spelled. *)
Fixpoint stringify (v : json) : string :=
  match v with
  | JNull => "null"
  | JBool true => "true"
  | JBool false => "false"
  | JNumber lexeme => lexeme
  | JString s => quote s
  | JArray items => ("[" ++ commaSep (map stringify items) ++ "]")%string
  | JObject ms =>
      ("{" ++ commaSep (map (fun m => (quote (fst m) ++ ":" ++ stringify (snd m))%string) ms) ++ "}")%string
  end.

(** [Array.prototype.sort] by insertion: each element in turn moves left
    past the elements the comparator puts after it. [front] is the sorted
    front of the array, last element first; [k] counts the calls of the
    comparator. *)
Fixpoint insert {A} (cmp : nat -> Q) (k : nat) (x : A) (front : list A) : list A * nat :=
  match front with
  | [] => ([x], k)
  | y :: front' =>
      if Qle_bool (cmp k) 0
      then (x :: y :: front', S k)
      else let '(r, k') := insert cmp (S k) x front' in (y :: r, k')
  end.

Fixpoint insertAll {A} (cmp : nat -> Q) (k : nat) (front : list A) (l : list A) : list A :=
  match l with
  | [] => rev front
  | x :: l' => let '(front', k') := insert cmp k x front in insertAll cmp k' front' l'
  end.

Definition sort {A} (cmp : nat -> Q) (l : list A) : list A := insertAll cmp 0 [] l.

Lemma insert_perm {A} (cmp : nat -> Q) (x : A) (front : list A) (k : nat) :
  Permutation (fst (insert cmp k x front)) (x :: front).
Proof.
  revert k. induction front as [|y front IH]; intros k; simpl.
  - reflexivity.
  - destruct (Qle_bool (cmp k) 0); simpl.
    + reflexivity.
    + specialize (IH (S k)). destruct (insert cmp (S k) x front) as [r k']. simpl in *.
      rewrite IH. apply perm_swap.
Qed.

Lemma insertAll_perm {A} (cmp : nat -> Q) (l front : list A) (k : nat) :
  Permutation (insertAll cmp k front l) (front ++ l).
Proof.
  revert front k. induction l as [|x l IH]; intros front k; simpl.
  - rewrite app_nil_r. symmetry. apply Permutation_rev.
  - pose proof (insert_perm cmp x front k) as Hi.
    destruct (insert cmp k x front) as [front' k']. simpl in Hi.
    rewrite IH, Hi. simpl. apply Permutation_middle.
Qed.

Lemma sort_perm (A : Type) (cmp : nat -> Q) (l : list A) : Permutation (sort cmp l) l.
Proof. unfold sort. apply (insertAll_perm cmp l [] 0). Qed.

#[export] Instance platform : Platform := {|
  JSON_parse := parse;
  JSON_stringify := stringify;
  Array_sort := @sort;
  Array_sort_perm := sort_perm
|}.

End Reference.

(** Equality of questions is decidable. *)
#[global] Instance QuizAnswerOption_eq_dec : EqDecision Quiz.QuizAnswerOption.
Proof. solve_decision. Defined.
#[global] Instance Difficulty_eq_dec : EqDecision Quiz.Difficulty.
Proof. solve_decision. Defined.
#[global] Instance QuizQuestion_eq_dec : EqDecision Quiz.QuizQuestion.
Proof. solve_decision. Defined.

(** * Properties of the quiz rotation engine *)

Section QuizProperties.
Context `{Platform}.
Import Quiz.

(** The values that have an [includes] method. *)
Definition hasIncludes (v : json) : bool :=
  match v with
  | JArray _ | JString _ => true
  | _ => false
  end.

(** What [v.includes(x)] answers when [v] has the method. *)
Definition includesB (v : json) (x : string) : bool :=
  match v with
  | JArray items => existsb (fun e => strict_eq_string e x) items
  | JString s => str_includes s x
  | _ => false
  end.

(** The questions of [l] that the record [v] does not list. *)
Definition unseenIn (v : json) (l : list QuizQuestion) : list QuizQuestion :=
  List.filter (fun q => negb (includesB v (id q))) l.

(** The screen a new quiz starts with. *)
Definition freshScreen (batch : list QuizQuestion) : Screen :=
  {| quizState := active; currentQuestions := batch; currentQuestionIndex := 0;
     score := 0; selectedAnswer := None; answerStatus := unanswered |}.

Lemma js_includes_hasIncludes v x :
  hasIncludes v = true -> js_includes v x = Normal (includesB v x).
Proof. destruct v; simpl; intros Hv; try discriminate; reflexivity. Qed.

Lemma filterC_notSeen v l :
  hasIncludes v = true -> filterC (notSeen v) l = Normal (unseenIn v l).
Proof.
  intros Hv. induction l as [|q l IH]; cbn [filterC].
  - reflexivity.
  - rewrite IH. unfold notSeen. rewrite (js_includes_hasIncludes v (id q) Hv).
    simpl. destruct (includesB v (id q)); reflexivity.
Qed.

(** Reading the record never throws. *)
Lemma readSeenIds_total sto : exists v, readSeenIds sto = Normal v.
Proof.
  unfold readSeenIds, parseC.
  destruct (getItem SEEN_QUESTIONS_STORAGE_KEY sto) as [stored|]; simpl; eauto.
  destruct (truthy stored); simpl; eauto.
  destruct (JSON_parse stored); simpl; eauto.
Qed.

(** What [startNewQuiz] does when the record can be searched. *)
Lemma startNewQuiz_eq random w v :
  readSeenIds (localStorage w) = Normal v ->
  hasIncludes v = true ->
  startNewQuiz random w =
  Normal (if length (unseenIn v (pool w)) <? QUESTIONS_PER_BATCH
          then {| localStorage := removeItem SEEN_QUESTIONS_STORAGE_KEY (localStorage w);
                  pool := shuffle random (pool w);
                  screen := freshScreen (firstn QUESTIONS_PER_BATCH (shuffle random (pool w))) |}
          else {| localStorage := localStorage w;
                  pool := pool w;
                  screen := freshScreen (firstn QUESTIONS_PER_BATCH (shuffle random (unseenIn v (pool w)))) |}).
Proof.
  intros Hread Hv. unfold startNewQuiz, getUnseenQuestions.
  rewrite Hread. simpl. rewrite (filterC_notSeen v (pool w) Hv). simpl.
  destruct (length (unseenIn v (pool w)) <? QUESTIONS_PER_BATCH); reflexivity.
Qed.

Lemma shuffle_perm random a : Permutation (shuffle random a) a.
Proof. apply Array_sort_perm. Qed.

Lemma NoDup_ids_pool : NoDup (map id allMockQuestions).
Proof. apply (bool_decide_unpack _). vm_compute. exact I. Qed.

Lemma filter_sublist {A} (p : A -> bool) (l : list A) : List.filter p l `sublist_of` l.
Proof.
  induction l as [|x l IH]; simpl.
  - constructor.
  - destruct (p x); constructor; exact IH.
Qed.

Lemma map_sublist {A B} (f : A -> B) (l1 l2 : list A) :
  l1 `sublist_of` l2 -> map f l1 `sublist_of` map f l2.
Proof. induction 1; simpl; constructor; assumption. Qed.

(** Ids stay distinct in every part of a rearrangement of the pool. *)
Lemma NoDup_ids_part (part l : list QuizQuestion) :
  Permutation l allMockQuestions -> part `sublist_of` l -> NoDup (map id part).
Proof.
  intros Hperm Hsub. apply (sublist_NoDup _ (map id l)).
  - rewrite (Permutation_map id Hperm). exact NoDup_ids_pool.
  - apply map_sublist, Hsub.
Qed.

(** So do they in the front of a shuffled part. *)
Lemma NoDup_ids_batch random n (part l : list QuizQuestion) :
  Permutation l allMockQuestions -> part `sublist_of` l ->
  NoDup (map id (firstn n (shuffle random part))).
Proof.
  intros Hperm Hsub. apply (sublist_NoDup _ (map id (shuffle random part))).
  - rewrite (Permutation_map id (shuffle_perm random part)).
    apply (NoDup_ids_part part l Hperm Hsub).
  - apply map_sublist, sublist_take.
Qed.

(** With a record that can be searched, [startNewQuiz] returns with a
    batch of exactly min(QUESTIONS_PER_BATCH, size of the pool)
    questions, no two of which share an id; the pool, which the sort may
    have rearranged, still holds the same questions. *)
Lemma startNewQuiz_searchable_record random w v :
  Permutation (pool w) allMockQuestions ->
  readSeenIds (localStorage w) = Normal v ->
  hasIncludes v = true ->
  exists w',
    startNewQuiz random w = Normal w' /\
    length (currentQuestions (screen w')) = Nat.min QUESTIONS_PER_BATCH (length allMockQuestions) /\
    NoDup (map id (currentQuestions (screen w'))) /\
    Permutation (pool w') allMockQuestions.
Proof.
  intros Hpool Hread Hv. eexists. split; [apply (startNewQuiz_eq random w v Hread Hv)|].
  assert (Hlen : length (pool w) = 20) by (rewrite (Permutation_length Hpool); reflexivity).
  destruct (Nat.ltb_spec (length (unseenIn v (pool w))) QUESTIONS_PER_BATCH) as [Hlt|Hge];
    cbn [screen pool currentQuestions freshScreen].
  - repeat split.
    + rewrite length_firstn, (Permutation_length (shuffle_perm random (pool w))), Hlen.
      reflexivity.
    + apply (NoDup_ids_batch random _ (pool w) (pool w) Hpool). reflexivity.
    + rewrite shuffle_perm. exact Hpool.
  - repeat split; [| |exact Hpool].
    + rewrite length_firstn, (Permutation_length (shuffle_perm random _)).
      change (length allMockQuestions) with 20. unfold QUESTIONS_PER_BATCH in *. lia.
    + apply (NoDup_ids_batch random _ _ (pool w) Hpool). apply filter_sublist.
Qed.

(** C1. Not every state of the persisted record gives a batch. The
    record as [getUnseenQuestions] reads it is an array when nothing, the
    empty string or a text that is not JSON is stored, and otherwise
    whatever the stored text parses to. If that value has an [includes]
    method, [startNewQuiz] returns with a batch of exactly
    min(QUESTIONS_PER_BATCH, size of the pool) questions, no two of which
    share an id. If it has none (a stored number, boolean, null or
    object), the filter of line 176, which is outside the [try], throws
    a TypeError and there is no batch. *)
Theorem startNewQuiz_batch_or_TypeError random w :
  Permutation (pool w) allMockQuestions ->
  exists v,
    readSeenIds (localStorage w) = Normal v /\
    (hasIncludes v = true ->
       exists w',
         startNewQuiz random w = Normal w' /\
         length (currentQuestions (screen w'))
           = Nat.min QUESTIONS_PER_BATCH (length allMockQuestions) /\
         NoDup (map id (currentQuestions (screen w'))) /\
         Permutation (pool w') allMockQuestions) /\
    (hasIncludes v = false ->
       startNewQuiz random w = Throw TypeError /\
       forall w', startNewQuiz random w <> Normal w').
Proof.
  intros Hpool. destruct (readSeenIds_total (localStorage w)) as [v Hread].
  exists v. split; [exact Hread|]. split.
  - intros Hv. apply (startNewQuiz_searchable_record random w v Hpool Hread Hv).
  - intros Hv.
    assert (Hthrow : startNewQuiz random w = Throw TypeError).
    { unfold startNewQuiz, getUnseenQuestions. rewrite Hread.
      pose proof (Permutation_length Hpool) as Hlen.
      destruct (pool w) as [|q l]; [discriminate Hlen|].
      destruct v; try discriminate Hv; reflexivity. }
    split; [exact Hthrow|]. intros w' Hrun. rewrite Hthrow in Hrun. discriminate Hrun.
Qed.

(** C2. At [startNewQuiz], when fewer than QUESTIONS_PER_BATCH questions
    of the pool are unseen, the persisted record is removed and the batch
    is drawn from the whole pool; otherwise the storage is left as it was
    and the batch is drawn from the unseen questions, so that no question
    of the batch is in the record. *)
Theorem startNewQuiz_reset_policy random w v :
  readSeenIds (localStorage w) = Normal v ->
  hasIncludes v = true ->
  exists w',
    startNewQuiz random w = Normal w' /\
    (length (unseenIn v (pool w)) < QUESTIONS_PER_BATCH ->
       localStorage w' = removeItem SEEN_QUESTIONS_STORAGE_KEY (localStorage w) /\
       getItem SEEN_QUESTIONS_STORAGE_KEY (localStorage w') = None /\
       currentQuestions (screen w') = firstn QUESTIONS_PER_BATCH (shuffle random (pool w))) /\
    (QUESTIONS_PER_BATCH <= length (unseenIn v (pool w)) ->
       localStorage w' = localStorage w /\
       currentQuestions (screen w')
         = firstn QUESTIONS_PER_BATCH (shuffle random (unseenIn v (pool w))) /\
       Forall (fun q => includesB v (id q) = false) (currentQuestions (screen w'))).
Proof.
  intros Hread Hv. eexists. split; [apply (startNewQuiz_eq random w v Hread Hv)|].
  destruct (Nat.ltb_spec (length (unseenIn v (pool w))) QUESTIONS_PER_BATCH) as [Hlt|Hge];
    cbn [screen localStorage currentQuestions freshScreen]; split; intros Hcase; try lia.
  - repeat split. unfold getItem, removeItem. apply lookup_delete_eq.
  - repeat split. apply Forall_forall. intros q Hq.
    pose proof (elem_of_sublist _ _ _ Hq (sublist_take _ _)) as Hin.
    rewrite shuffle_perm in Hin. apply list_elem_of_In, filter_In in Hin.
    destruct Hin as [_ Hin]. apply negb_true_iff in Hin. exact Hin.
Qed.

(** The runs of [Math.random] are taken from a finite list [omega] of
    equally likely ones; a source of [e] fair bits has [2 ^ e] of them.
    [outcomes omega a p] counts the runs that shuffle [a] into [p]. *)
Definition outcomes (omega : list (nat -> Q)) (a p : list QuizQuestion) : nat :=
  length (List.filter (fun random => bool_decide (shuffle random a = p)) omega).

(** Every arrangement of [a] comes out with probability 1/n!. *)
Definition uniformShuffle (omega : list (nat -> Q)) (a : list QuizQuestion) : Prop :=
  forall p, Permutation p a -> outcomes omega a p * fact (length a) = length omega.

Lemma three_divides_fact n : 3 <= n -> Nat.divide 3 (fact n).
Proof.
  induction 1 as [|m Hm IH].
  - exists 2. reflexivity.
  - change (fact (S m)) with (S m * fact m). apply Nat.divide_mul_r, IH.
Qed.

Lemma three_not_divides_pow2 e : ~ Nat.divide 3 (2 ^ e).
Proof.
  induction e as [|e IH]; intros Hd.
  - apply Nat.divide_1_r in Hd. discriminate.
  - rewrite Nat.pow_succ_r' in Hd. apply Nat.gauss in Hd; [exact (IH Hd)|reflexivity].
Qed.

(** C3. The sort with the comparator [0.5 - Math.random()] is not a
    uniform shuffle: for three or more distinct questions, whatever the
    sorting algorithm of the platform, no random source of finitely many
    fair bits makes every arrangement equally likely. *)
Theorem shuffle_not_uniform (e : nat) (omega : list (nat -> Q)) (a : list QuizQuestion) :
  length omega = 2 ^ e ->
  NoDup a ->
  3 <= length a ->
  ~ uniformShuffle omega a.
Proof.
  intros Homega _ Hlen Huniform.
  specialize (Huniform a (Permutation_refl a)). rewrite Homega in Huniform.
  apply (three_not_divides_pow2 e). rewrite <- Huniform.
  apply Nat.divide_mul_r, three_divides_fact, Hlen.
Qed.

(** C4. With a stored record that is not JSON, [startNewQuiz] goes on
    with an empty record, but [handleNextQuestion] parses the record
    outside any [try] and the SyntaxError leaves the handler. *)
Theorem handleNextQuestion_propagates_parse_error random w stored :
  getItem SEEN_QUESTIONS_STORAGE_KEY (localStorage w) = Some stored ->
  truthy stored = true ->
  JSON_parse stored = None ->
  readSeenIds (localStorage w) = Normal (JArray []) /\
  (exists w', startNewQuiz random w = Normal w') /\
  handleNextQuestion w = Throw SyntaxError.
Proof.
  intros Hget Htruthy Hparse.
  assert (Hread : readSeenIds (localStorage w) = Normal (JArray [])).
  { unfold readSeenIds, parseC. rewrite Hget, Htruthy, Hparse. reflexivity. }
  split; [exact Hread|]. split.
  - eexists. apply (startNewQuiz_eq random w (JArray []) Hread). reflexivity.
  - unfold handleNextQuestion, parseC. rewrite Hget, Htruthy, Hparse. reflexivity.
Qed.

(** C5. The submission of an answer. Without a selected answer it
    changes nothing: the handler returns at once, and the button is
    disabled. With a selected answer, on an unanswered question, it adds
    one to the score exactly when the selected option is correct and
    sets the status to correct or incorrect accordingly, leaving the
    rest of the screen as it is. Once the status is correct or incorrect
    the screen shows the Next button in place of the Submit button, so a
    further submission changes neither score nor status until the quiz
    is advanced. *)
Theorem submit_is_terminal_for_the_question random w :
  let s := screen w in
  (selectedAnswer s = None ->
     handleSubmitAnswer s = s /\ dispatch random ClickSubmit w = Normal w) /\
  (forall a,
     quizState s = active -> answerStatus s = unanswered -> selectedAnswer s = Some a ->
     let s' := handleSubmitAnswer s in
     dispatch random ClickSubmit w = Normal (withScreen w s') /\
     score s' = score s + (if isCorrect a then 1 else 0) /\
     answerStatus s' = (if isCorrect a then correct else incorrect) /\
     (selectedAnswer s', quizState s', currentQuestions s', currentQuestionIndex s')
       = (Some a, quizState s, currentQuestions s, currentQuestionIndex s) /\
     dispatch random ClickSubmit (withScreen w s') = Normal (withScreen w s')) /\
  (answerStatus s <> unanswered -> dispatch random ClickSubmit w = Normal w).
Proof.
  intros s. split; [|split].
  - intros Hnone. split.
    + unfold handleSubmitAnswer. fold s. rewrite Hnone. reflexivity.
    + unfold dispatch, offered. fold s. rewrite Hnone.
      destruct (quizState s); [reflexivity| |reflexivity].
      rewrite andb_false_r. reflexivity.
  - intros a Hactive Hstatus Hsel s'. subst s'.
    unfold dispatch at 1. unfold offered at 1. fold s.
    rewrite Hactive, Hstatus, Hsel. simpl.
    unfold handleSubmitAnswer. fold s. rewrite Hsel.
    destruct (isCorrect a); cbn [score answerStatus selectedAnswer quizState
      currentQuestions currentQuestionIndex]; rewrite ?Hsel;
      repeat split; try lia;
      unfold dispatch, offered; cbn [withScreen screen quizState answerStatus];
      rewrite Hactive; reflexivity.
  - intros Hstatus. unfold dispatch, offered. fold s.
    destruct (quizState s); [reflexivity| |reflexivity].
    destruct (answerStatus s); try congruence; reflexivity.
Qed.

(** C10. Every question of the pool has exactly one option marked
    correct, and no two questions of the pool share an id. *)
Theorem allMockQuestions_integrity :
  Forall (fun q => length (List.filter isCorrect (options q)) = 1) allMockQuestions /\
  NoDup (map id allMockQuestions).
Proof.
  split.
  - repeat constructor.
  - exact NoDup_ids_pool.
Qed.

End QuizProperties.

(** ** The quiz properties at sample inputs, on the reference platform *)

Section QuizSamples.
#[local] Existing Instance Reference.platform.
Import Quiz.

(** The k-th call of [Math.random] answers 0.75 if the k-th bit is set,
    0.25 otherwise. *)
Definition randomOfBits (bits : list bool) : nat -> Q :=
  fun k => if nth k bits false then 3 # 4 else 1 # 4.

(** All sequences of [n] bits. *)
Fixpoint bitLists (n : nat) : list (list bool) :=
  match n with
  | 0 => [[]]
  | S n' => map (cons false) (bitLists n') ++ map (cons true) (bitLists n')
  end.

Definition sampleRandom : nat -> Q := randomOfBits [true; false; false; true; true; false].

(** A record as [handleNextQuestion] writes it. *)
Definition recordOf (ids : list string) : Storage :=
  {[ SEEN_QUESTIONS_STORAGE_KEY := JSON_stringify (JArray (map JString ids)) ]}.

Definition twoSeen : World := initialWorld (recordOf ["gk1"; "logic2"]).

Definition corruptRecord : World :=
  initialWorld {[ SEEN_QUESTIONS_STORAGE_KEY := "{oops" ]}.

Definition threeQuestions : list QuizQuestion := firstn 3 allMockQuestions.

(** A stored text that is JSON but no array. *)
Definition nullRecord : World :=
  initialWorld {[ SEEN_QUESTIONS_STORAGE_KEY := "null" ]}.

(** The screen after choosing the right answer to the first question of
    a new quiz. *)
Definition selectedScreen : Screen :=
  handleAnswerSelect (opt "New Delhi" true) (freshScreen (firstn 5 allMockQuestions)).

(** The screen after choosing and submitting the right answer to the
    first question of a new quiz. *)
Definition answeredScreen : Screen :=
  handleSubmitAnswer
    (handleAnswerSelect (opt "New Delhi" true) (freshScreen (firstn 5 allMockQuestions))).

Lemma startNewQuiz_batch_witness :
  startNewQuiz sampleRandom nullRecord = Throw TypeError /\
  exists w',
    startNewQuiz sampleRandom twoSeen = Normal w' /\
    length (currentQuestions (screen w')) = Nat.min QUESTIONS_PER_BATCH (length allMockQuestions) /\
    NoDup (map id (currentQuestions (screen w'))).
Proof.
  split.
  - destruct (startNewQuiz_batch_or_TypeError sampleRandom nullRecord)
      as (v & Hread & _ & Hthrow); [reflexivity|].
    apply Hthrow. vm_compute in Hread. injection Hread as <-. reflexivity.
  - destruct (startNewQuiz_batch_or_TypeError sampleRandom twoSeen)
      as (v & Hread & Hbatch & _); [reflexivity|].
    destruct Hbatch as (w' & Hrun & Hlen & Hids & _).
    + vm_compute in Hread. injection Hread as <-. reflexivity.
    + exists w'. split; [exact Hrun|]. split; [exact Hlen|exact Hids].
Defined.

Lemma startNewQuiz_reset_policy_witness :
  exists w',
    startNewQuiz sampleRandom twoSeen = Normal w' /\
    localStorage w' = localStorage twoSeen /\
    Forall (fun q => includesB (JArray [JString "gk1"; JString "logic2"]) (id q) = false)
      (currentQuestions (screen w')).
Proof.
  destruct (startNewQuiz_reset_policy sampleRandom twoSeen
              (JArray [JString "gk1"; JString "logic2"])) as [w' [Hrun [_ Hkeep]]].
  - vm_compute. reflexivity.
  - reflexivity.
  - exists w'. split; [exact Hrun|].
    destruct Hkeep as [Hsto [_ Hunseen]]; [vm_compute; lia|]. split; assumption.
Defined.

Lemma shuffle_not_uniform_witness :
  length (map randomOfBits (bitLists 3)) = 2 ^ 3 /\
  3 <= length threeQuestions /\
  ~ uniformShuffle (map randomOfBits (bitLists 3)) threeQuestions.
Proof.
  split; [reflexivity|]. split; [vm_compute; lia|].
  apply (shuffle_not_uniform 3).
  - reflexivity.
  - apply (bool_decide_unpack _). vm_compute. exact I.
  - vm_compute. lia.
Defined.

Lemma handleNextQuestion_propagates_witness :
  (exists w', startNewQuiz sampleRandom corruptRecord = Normal w') /\
  handleNextQuestion corruptRecord = Throw SyntaxError.
Proof.
  destruct (handleNextQuestion_propagates_parse_error sampleRandom corruptRecord "{oops")
    as [_ [Hstart Hnext]].
  - vm_compute. reflexivity.
  - reflexivity.
  - vm_compute. reflexivity.
  - split; assumption.
Defined.

Lemma submit_is_terminal_witness :
  dispatch sampleRandom ClickSubmit (withScreen twoSeen selectedScreen)
    = Normal (withScreen twoSeen answeredScreen) /\
  score answeredScreen = 1 /\
  answerStatus answeredScreen = correct /\
  dispatch sampleRandom ClickSubmit (withScreen twoSeen answeredScreen)
    = Normal (withScreen twoSeen answeredScreen).
Proof.
  destruct (submit_is_terminal_for_the_question sampleRandom (withScreen twoSeen selectedScreen))
    as (_ & Hsubmit & _).
  destruct (Hsubmit (opt "New Delhi" true)) as (Hrun & Hscore & Hstatus & _ & Hagain);
    try reflexivity.
  split; [exact Hrun|]. split; [exact Hscore|]. split; [exact Hstatus|exact Hagain].
Defined.

End QuizSamples.

(** * Properties of the session store *)

Section AuthProperties.
Context `{Platform}.
Import Auth.

(** What a restart finds, by the stored record. *)
Lemma restart_eq sto :
  restart sto =
  match getItem USER_STORAGE_KEY sto with
  | Some stored =>
      if truthy stored then
        match JSON_parse stored with
        | Some parsedUser =>
            ({| isAuthenticated := true; user := parsedUser; loading := false |}, sto)
        | None =>
            ({| isAuthenticated := false; user := JNull; loading := false |},
             removeItem USER_STORAGE_KEY sto)
        end
      else ({| isAuthenticated := false; user := JNull; loading := false |}, sto)
  | None => ({| isAuthenticated := false; user := JNull; loading := false |}, sto)
  end.
Proof.
  unfold restart, mount.
  destruct (getItem USER_STORAGE_KEY sto) as [stored|]; [|reflexivity].
  destruct (truthy stored); [|reflexivity].
  destruct (JSON_parse stored); reflexivity.
Qed.

Lemma getItem_after_login u st sto :
  getItem USER_STORAGE_KEY (snd (login u st sto)) = Some (JSON_stringify u).
Proof. unfold login, getItem, setItem. simpl. apply lookup_insert_eq. Qed.

(** C6. After [login u] and a restart the store is authenticated with
    user [u] exactly when the persisted record parses; when it does not
    parse the store starts unauthenticated, without a user, and the
    record is removed. [JSON.stringify] of a user is not the empty
    string, and a parse of it, when there is one, gives the user back. *)
Theorem login_then_restart (u : json) st sto :
  truthy (JSON_stringify u) = true ->
  (forall v, JSON_parse (JSON_stringify u) = Some v -> v = u) ->
  let st' := fst (restart (snd (login u st sto))) in
  let sto' := snd (restart (snd (login u st sto))) in
  (isAuthenticated st' = true /\ user st' = u <-> is_Some (JSON_parse (JSON_stringify u))) /\
  (JSON_parse (JSON_stringify u) = None ->
   isAuthenticated st' = false /\ user st' = JNull /\ getItem USER_STORAGE_KEY sto' = None).
Proof.
  intros Htruthy Hround st' sto'. subst st' sto'.
  rewrite restart_eq, getItem_after_login, Htruthy.
  destruct (JSON_parse (JSON_stringify u)) as [v|] eqn:Hparse; simpl.
  - split; [|discriminate]. split; [intros _; eexists; reflexivity|].
    intros _. split; [reflexivity|]. apply Hround. reflexivity.
  - split.
    + split; [intros [Hauth _]; discriminate|intros [v Hv]; discriminate].
    + intros _. repeat split. unfold getItem, removeItem. apply lookup_delete_eq.
Qed.

End AuthProperties.

Section AuthSamples.
#[local] Existing Instance Reference.platform.
Import Auth.

Lemma login_then_restart_witness :
  let st' := fst (restart (snd (login Login.demoUser initialState ∅))) in
  isAuthenticated st' = true /\ user st' = Login.demoUser.
Proof.
  apply (login_then_restart Login.demoUser initialState ∅).
  - reflexivity.
  - intros v Hv. vm_compute in Hv. injection Hv as <-. reflexivity.
  - exists Login.demoUser. vm_compute. reflexivity.
Defined.

End AuthSamples.

(** * Properties of the preference store *)

Section LanguageProperties.
Import Language.

Lemma truthy_nonempty s : truthy s = true <-> s <> "".
Proof. destruct s; simpl; split; congruence. Qed.



(** C8. The initial language is the stored string whenever one is stored
    and is not empty, a valid code or not; it is EN when nothing or the
    empty string is stored. A valid stored code is therefore restored,
    and the initial language is EN only in the three cases named. *)
Theorem initialLanguage_restores_any_stored_string (sto : Storage) :
  (forall stored, getItem LANGUAGE_STORAGE_KEY sto = Some stored -> stored <> "" ->
     initialLanguage sto = stored) /\
  (forall code, getItem LANGUAGE_STORAGE_KEY sto = Some code -> isValidCode code = true ->
     initialLanguage sto = code) /\
  (initialLanguage sto = EN <->
     getItem LANGUAGE_STORAGE_KEY sto = None \/
     getItem LANGUAGE_STORAGE_KEY sto = Some "" \/
     getItem LANGUAGE_STORAGE_KEY sto = Some EN).
Proof.
  unfold initialLanguage.
  destruct (getItem LANGUAGE_STORAGE_KEY sto) as [stored|]; repeat split.
  - intros s Hs Hne. injection Hs as <-.
    apply truthy_nonempty in Hne. rewrite Hne. reflexivity.
  - intros code Hc Hvalid. injection Hc as <-.
    destruct stored; [discriminate Hvalid|reflexivity].
  - destruct stored as [|c stored]; simpl; [auto|]. intros ->. auto.
  - intros [Hn|[He|He]]; try discriminate; injection He as ->; reflexivity.
  - intros s Hs. discriminate.
  - intros c Hc. discriminate.
  - auto.
Qed.




(** A stored string that is no language code becomes the language. *)
Lemma initialLanguage_keeps_invalid_code :
  isValidCode "FR" = false /\
  initialLanguage {[ LANGUAGE_STORAGE_KEY := "FR" ]} = "FR" /\
  initialLanguage {[ LANGUAGE_STORAGE_KEY := "FR" ]} <> EN.
Proof. repeat split. discriminate. Qed.

Lemma initialLanguage_witness :
  initialLanguage {[ LANGUAGE_STORAGE_KEY := TA ]} = TA.
Proof.
  apply (initialLanguage_restores_any_stored_string {[ LANGUAGE_STORAGE_KEY := TA ]}).
  - reflexivity.
  - reflexivity.
Defined.

End LanguageProperties.

(** * Properties of the registration screen *)

Section RegistrationProperties.
Context `{Platform}.
Import Registration.

(** C9. When the password and its confirmation differ, or the name, the
    email or the password is empty, [handleSubmit] sets an error message
    that the screen shows and calls neither [login] nor [navigate]: the
    form fields, the session state, the storage and the location stay as
    they were. *)
Theorem handleSubmit_rejects_invalid_form (HOME : string) (now : N) (f : Form) (a : App.AppState) :
  password f <> confirmPassword f \/ name f = "" \/ email f = "" \/ password f = "" ->
  let f' := fst (handleSubmit HOME now f) in
  let calls := snd (handleSubmit HOME now f) in
  error f' = (if String.eqb (password f) (confirmPassword f)
              then "Please fill in all fields." else "Passwords do not match.") /\
  truthy (error f') = true /\
  calls = [] /\
  App.performAll calls a = a /\
  (name f', email f', password f', confirmPassword f')
    = (name f, email f, password f, confirmPassword f).
Proof.
  intros Hinvalid. unfold handleSubmit.
  destruct (String.eqb_spec (password f) (confirmPassword f)) as [Heq|Hne]; simpl.
  - destruct Hinvalid as [Hmis|Hempty]; [contradiction|].
    assert (Hfalsy : negb (truthy (name f)) || negb (truthy (email f))
                       || negb (truthy (password f)) = true).
    { destruct Hempty as [-> | [-> | ->]]; simpl; rewrite ?orb_true_r; reflexivity. }
    rewrite Hfalsy. simpl. repeat split.
  - repeat split.
Qed.

End RegistrationProperties.

Section RegistrationSamples.
#[local] Existing Instance Reference.platform.
Import Registration.

Definition mismatchedForm : Form :=
  {| name := "Asha"; email := "asha@example.com"; password := "secret";
     confirmPassword := "secret1"; error := "" |}.

Definition loggedOut : App.AppState :=
  {| App.auth := fst (Auth.restart ∅); App.storage := ∅; App.location := "/register" |}.

Lemma handleSubmit_rejects_witness :
  error (fst (handleSubmit "/home" 1730457600000 mismatchedForm)) = "Passwords do not match." /\
  App.performAll (snd (handleSubmit "/home" 1730457600000 mismatchedForm)) loggedOut = loggedOut.
Proof.
  destruct (handleSubmit_rejects_invalid_form "/home" 1730457600000 mismatchedForm loggedOut)
    as [Herr [_ [_ [Hsame _]]]].
  - left. discriminate.
  - split; [exact Herr|exact Hsame].
Defined.

End RegistrationSamples.

(** * Further properties of the quiz screen *)

Section QuizEngineProperties.
Context `{Platform}.
Import Quiz.

(** Line 219: the record as [handleNextQuestion] reads it, with no
    [try] around the parse. *)
Definition parsedRecord (sto : Storage) : Completion json :=
  match getItem SEEN_QUESTIONS_STORAGE_KEY sto with
  | Some str => if truthy str then parseC str else Normal (JArray [])
  | None => Normal (JArray [])
  end.

(** The ids of an array record after [id] was recorded. *)
Definition recorded (items : list json) (x : string) : list json :=
  if existsb (fun e => strict_eq_string e x) items then items else items ++ [JString x].

(** The number of answers given so far to the current question. *)
Definition answered (s : Screen) : nat :=
  if isUnanswered (answerStatus s) then 0 else 1.

(** What holds of the screen and the pool in every state the events lead
    to. *)
Definition quizInvariant (w : World) : Prop :=
  Permutation (pool w) allMockQuestions /\
  length (currentQuestions (screen w)) <= QUESTIONS_PER_BATCH /\
  ((quizState (screen w) = idle /\ score (screen w) = 0) \/
   (currentQuestionIndex (screen w) < length (currentQuestions (screen w)) /\
    score (screen w) <= currentQuestionIndex (screen w) + answered (screen w))).

(** A sequence of user events, each with the numbers [Math.random]
    returns while it is handled, stopped by the first exception. *)
Fixpoint dispatchAll (steps : list ((nat -> Q) * Event)) (w : World) : Completion World :=
  match steps with
  | [] => Normal w
  | (random, e) :: steps' =>
      match dispatch random e w with
      | Normal w' => dispatchAll steps' w'
      | Throw err => Throw err
      end
  end.

(** X1. When the stored record parses to a value that has no [includes]
    method (a number, a boolean, null, an object), the filter of
    [getUnseenQuestions], which is outside the [try], throws a TypeError
    at the first question of the pool, and so does [startNewQuiz]. *)
Theorem startNewQuiz_throws_without_includes random w v :
  readSeenIds (localStorage w) = Normal v ->
  hasIncludes v = false ->
  pool w <> [] ->
  startNewQuiz random w = Throw TypeError.
Proof.
  intros Hread Hv Hpool. unfold startNewQuiz, getUnseenQuestions. rewrite Hread.
  destruct (pool w) as [|q l]; [congruence|].
  destruct v; try discriminate Hv; reflexivity.
Qed.

Lemma handleNextQuestion_eq w items q :
  parsedRecord (localStorage w) = Normal (JArray items) ->
  currentQuestions (screen w) !! currentQuestionIndex (screen w) = Some q ->
  handleNextQuestion w =
  Normal {| localStorage :=
              if existsb (fun e => strict_eq_string e (id q)) items then localStorage w
              else setItem SEEN_QUESTIONS_STORAGE_KEY
                     (JSON_stringify (JArray (items ++ [JString (id q)]))) (localStorage w);
            pool := pool w;
            screen := advance (screen w) |}.
Proof.
  intros Hrec Hq. unfold handleNextQuestion. unfold parsedRecord in Hrec.
  destruct (getItem SEEN_QUESTIONS_STORAGE_KEY (localStorage w)) as [str|].
  - destruct (truthy str).
    + rewrite Hrec. simpl. rewrite Hq. simpl.
      destruct (existsb _ items); reflexivity.
    + injection Hrec as <-. simpl. rewrite Hq. reflexivity.
  - injection Hrec as <-. simpl. rewrite Hq. reflexivity.
Qed.

Lemma recorded_includes items x :
  existsb (fun e => strict_eq_string e x) (recorded items x) = true.
Proof.
  unfold recorded. destruct (existsb _ items) eqn:Hin; [exact Hin|].
  rewrite existsb_app. simpl. rewrite String.eqb_refl, orb_true_r. reflexivity.
Qed.

Lemma recorded_NoDup items x : NoDup items -> NoDup (recorded items x).
Proof.
  intros Hnd. unfold recorded. destruct (existsb _ items) eqn:Hin; [exact Hnd|].
  apply NoDup_app. split; [exact Hnd|]. split; [|apply NoDup_singleton].
  intros e He Hx. apply list_elem_of_singleton in Hx. subst e.
  assert (Hex : existsb (fun e => strict_eq_string e x) items = true).
  { apply existsb_exists. exists (JString x). split; [apply list_elem_of_In, He|].
    simpl. apply String.eqb_refl. }
  congruence.
Qed.

(** X2. With an array as record, [handleNextQuestion] returns and
    leaves a record that lists the id of the current question, and lists
    nothing twice if it did not before; called again for a question of
    that id it leaves the storage as it is. The platform is assumed to
    parse back the array it stringified. *)
Theorem handleNextQuestion_never_duplicates w items q :
  parsedRecord (localStorage w) = Normal (JArray items) ->
  currentQuestions (screen w) !! currentQuestionIndex (screen w) = Some q ->
  truthy (JSON_stringify (JArray (recorded items (id q)))) = true ->
  JSON_parse (JSON_stringify (JArray (recorded items (id q))))
    = Some (JArray (recorded items (id q))) ->
  exists w',
    handleNextQuestion w = Normal w' /\
    parsedRecord (localStorage w') = Normal (JArray (recorded items (id q))) /\
    existsb (fun e => strict_eq_string e (id q)) (recorded items (id q)) = true /\
    (NoDup items -> NoDup (recorded items (id q))) /\
    (forall w2 q2,
       localStorage w2 = localStorage w' ->
       currentQuestions (screen w2) !! currentQuestionIndex (screen w2) = Some q2 ->
       id q2 = id q ->
       exists w3, handleNextQuestion w2 = Normal w3 /\ localStorage w3 = localStorage w').
Proof.
  intros Hrec Hq Htruthy Hround. eexists. split; [apply (handleNextQuestion_eq w items q Hrec Hq)|].
  cbn [localStorage].
  assert (Hrec' : parsedRecord
            (if existsb (fun e => strict_eq_string e (id q)) items then localStorage w
             else setItem SEEN_QUESTIONS_STORAGE_KEY
                    (JSON_stringify (JArray (items ++ [JString (id q)]))) (localStorage w))
          = Normal (JArray (recorded items (id q)))).
  { unfold recorded in *. destruct (existsb _ items); [exact Hrec|].
    unfold parsedRecord, getItem, setItem, parseC.
    rewrite lookup_insert_eq, Htruthy, Hround. reflexivity. }
  split; [exact Hrec'|]. split; [apply recorded_includes|]. split; [apply recorded_NoDup|].
  intros w2 q2 Hsto Hq2 Hid. eexists. split.
  - apply (handleNextQuestion_eq w2 (recorded items (id q)) q2); [rewrite Hsto; exact Hrec'|exact Hq2].
  - cbn [localStorage]. rewrite Hid, recorded_includes. exact Hsto.
Qed.

(** Whatever the record, when [handleNextQuestion] returns it has
    advanced the screen, left the pool alone and written to no storage
    key but that of the record. *)
Lemma handleNextQuestion_advances w w' :
  handleNextQuestion w = Normal w' ->
  screen w' = advance (screen w) /\
  pool w' = pool w /\
  forall k, k <> SEEN_QUESTIONS_STORAGE_KEY ->
    getItem k (localStorage w') = getItem k (localStorage w).
Proof.
  unfold handleNextQuestion. intros Hrun.
  destruct (match getItem SEEN_QUESTIONS_STORAGE_KEY (localStorage w) with
            | Some str => if truthy str then parseC str else mret (JArray [])
            | None => mret (JArray [])
            end) as [seenIds|]; [|discriminate Hrun].
  simpl in Hrun.
  destruct (currentQuestions (screen w) !! currentQuestionIndex (screen w)) as [q|];
    [|discriminate Hrun].
  simpl in Hrun.
  destruct (js_includes seenIds (id q)) as [seen|]; [|discriminate Hrun].
  simpl in Hrun. destruct seen; simpl in Hrun.
  - injection Hrun as <-. auto.
  - destruct (js_push seenIds (id q)) as [pushed|]; [|discriminate Hrun].
    simpl in Hrun. injection Hrun as <-. repeat split.
    intros k Hk. unfold getItem, setItem. cbn [localStorage].
    apply lookup_insert_ne. congruence.
Qed.

(** X4. From a question inside the batch, [advance] stays inside the
    batch: it moves to the next question with the answer state reset, or,
    at the last question, only marks the quiz finished. Score and batch
    are kept. *)
Theorem advance_stays_in_batch (s : Screen) :
  currentQuestionIndex s < length (currentQuestions s) ->
  currentQuestionIndex (advance s) < length (currentQuestions (advance s)) /\
  score (advance s) = score s /\
  currentQuestions (advance s) = currentQuestions s /\
  (S (currentQuestionIndex s) < length (currentQuestions s) ->
   currentQuestionIndex (advance s) = S (currentQuestionIndex s) /\
   selectedAnswer (advance s) = None /\
   answerStatus (advance s) = unanswered /\
   quizState (advance s) = quizState s) /\
  (S (currentQuestionIndex s) = length (currentQuestions s) ->
   advance s = {| quizState := finished; currentQuestions := currentQuestions s;
                  currentQuestionIndex := currentQuestionIndex s; score := score s;
                  selectedAnswer := selectedAnswer s; answerStatus := answerStatus s |}).
Proof.
  intros Hin. unfold advance.
  destruct (Z.ltb_spec (Z.of_nat (currentQuestionIndex s))
              (Z.of_nat (length (currentQuestions s)) - 1)) as [Hlt|Hge]; simpl.
  - repeat split; lia.
  - repeat split; lia.
Qed.

(** X6. The sort works in place: when [startNewQuiz] resets, the array it
    shuffles is the static pool itself, whose order is changed, and the
    batch is the front of the pool as it is afterwards; otherwise the
    pool keeps its order. *)
Theorem startNewQuiz_sorts_pool_in_place random w v w' :
  readSeenIds (localStorage w) = Normal v ->
  hasIncludes v = true ->
  startNewQuiz random w = Normal w' ->
  (length (unseenIn v (pool w)) < QUESTIONS_PER_BATCH ->
     pool w' = shuffle random (pool w) /\
     currentQuestions (screen w') = firstn QUESTIONS_PER_BATCH (pool w')) /\
  (QUESTIONS_PER_BATCH <= length (unseenIn v (pool w)) -> pool w' = pool w).
Proof.
  intros Hread Hv Hrun. rewrite (startNewQuiz_eq random w v Hread Hv) in Hrun.
  injection Hrun as <-.
  destruct (Nat.ltb_spec (length (unseenIn v (pool w))) QUESTIONS_PER_BATCH) as [Hlt|Hge];
    cbn [pool screen currentQuestions freshScreen]; split; intros Hcase; try lia; auto.
Qed.

(** When [startNewQuiz] returns, the storage is as before or without the
    record, and the batch is the front of a rearrangement of a part of
    the pool. *)
Lemma startNewQuiz_returns random w w' :
  startNewQuiz random w = Normal w' ->
  (localStorage w' = localStorage w \/
   localStorage w' = removeItem SEEN_QUESTIONS_STORAGE_KEY (localStorage w)) /\
  Permutation (pool w') (pool w) /\
  exists part,
    screen w' = freshScreen (firstn QUESTIONS_PER_BATCH (shuffle random part)) /\
    part `sublist_of` pool w /\
    (QUESTIONS_PER_BATCH <= length part \/ part = pool w).
Proof.
  unfold startNewQuiz, getUnseenQuestions. intros Hrun.
  destruct (readSeenIds (localStorage w)) as [v|]; [|discriminate Hrun]. simpl in Hrun.
  destruct (filterC (notSeen v) (pool w)) as [unseen|] eqn:Hfilter; [|discriminate Hrun].
  simpl in Hrun.
  assert (Hsub : unseen `sublist_of` pool w).
  { clear Hrun. revert unseen Hfilter. induction (pool w) as [|q l IH]; intros unseen Hfilter.
    - injection Hfilter as <-. constructor.
    - cbn [filterC] in Hfilter. destruct (notSeen v q) as [b|]; [|discriminate Hfilter].
      simpl in Hfilter. destruct (filterC (notSeen v) l) as [r|]; [|discriminate Hfilter].
      simpl in Hfilter. injection Hfilter as <-.
      destruct b; constructor; apply IH; reflexivity. }
  destruct (Nat.ltb_spec (length unseen) QUESTIONS_PER_BATCH) as [Hlt|Hge];
    simpl in Hrun; injection Hrun as <-; cbn [localStorage pool screen].
  - split; [right; reflexivity|]. split; [apply shuffle_perm|].
    exists (pool w). split; [reflexivity|]. split; [reflexivity|right; reflexivity].
  - split; [left; reflexivity|]. split; [reflexivity|].
    exists unseen. split; [reflexivity|]. split; [exact Hsub|left; exact Hge].
Qed.

(** X3. No event on the quiz screen writes to a storage key other than
    that of the record, and only the start of a quiz changes the pool or
    the batch. *)
Theorem dispatch_frame random e w w' :
  dispatch random e w = Normal w' ->
  (forall k, k <> SEEN_QUESTIONS_STORAGE_KEY ->
     getItem k (localStorage w') = getItem k (localStorage w)) /\
  (e <> ClickStart ->
     pool w' = pool w /\ currentQuestions (screen w') = currentQuestions (screen w)).
Proof.
  unfold dispatch. intros Hrun.
  destruct (offered (screen w) e); [|injection Hrun as <-; auto].
  destruct e as [|i| |].
  - apply startNewQuiz_returns in Hrun as [[Hsto|Hsto] _]; rewrite Hsto; split;
      try congruence; auto.
    intros k Hk. unfold getItem, removeItem. apply lookup_delete_ne. congruence.
  - destruct (optionAt (screen w) i) as [o|]; injection Hrun as <-; [|auto].
    split; [auto|]. intros _. split; [reflexivity|]. cbn [withScreen screen].
    unfold handleAnswerSelect. destruct (answerStatus (screen w)); reflexivity.
  - injection Hrun as <-. split; [auto|]. intros _. split; [reflexivity|].
    cbn [withScreen screen]. unfold handleSubmitAnswer.
    destruct (selectedAnswer (screen w)) as [a|]; [destruct (isCorrect a)|]; reflexivity.
  - apply handleNextQuestion_advances in Hrun as [Hscreen [Hpool Hsto]].
    split; [exact Hsto|]. intros _. split; [exact Hpool|]. rewrite Hscreen.
    unfold advance. destruct (_ <? _)%Z; reflexivity.
Qed.

Lemma batch_length random (part l : list QuizQuestion) :
  Permutation l allMockQuestions ->
  QUESTIONS_PER_BATCH <= length part \/ part = l ->
  length (firstn QUESTIONS_PER_BATCH (shuffle random part)) = QUESTIONS_PER_BATCH.
Proof.
  intros Hperm Hpart.
  rewrite length_firstn, (Permutation_length (shuffle_perm random part)).
  destruct Hpart as [Hge| ->]; [lia|].
  rewrite (Permutation_length Hperm). reflexivity.
Qed.

Lemma dispatch_preserves_invariant random e w w' :
  quizInvariant w -> dispatch random e w = Normal w' -> quizInvariant w'.
Proof.
  intros (Hpool & Hlen & Hstate) Hrun. unfold dispatch in Hrun.
  destruct (offered (screen w) e) eqn:Hoffered;
    [|injection Hrun as <-; repeat split; assumption].
  unfold offered in Hoffered.
  destruct e as [|i| |].
  - apply startNewQuiz_returns in Hrun as (_ & Hpool' & part & Hscreen & Hsub & Hpart).
    unfold quizInvariant. rewrite Hscreen. cbn [freshScreen currentQuestions
      currentQuestionIndex score answerStatus quizState].
    rewrite (batch_length random part (pool w) Hpool Hpart).
    split; [rewrite Hpool'; exact Hpool|]. split; [reflexivity|].
    right. unfold QUESTIONS_PER_BATCH. simpl. lia.
  - destruct (quizState (screen w)) eqn:Hq; try discriminate Hoffered.
    destruct Hstate as [[Hidle _]|Hstate]; [discriminate Hidle|].
    destruct (optionAt (screen w) i) as [o|]; injection Hrun as <-;
      [|repeat split; auto].
    unfold quizInvariant, handleAnswerSelect, answered in *. cbn [withScreen pool screen].
    destruct (answerStatus (screen w)) eqn:Hst; simpl in *; rewrite ?Hst; simpl;
      repeat split; auto; right; lia.
  - destruct (quizState (screen w)) eqn:Hq; try discriminate Hoffered.
    destruct Hstate as [[Hidle _]|Hstate]; [discriminate Hidle|].
    apply andb_true_iff in Hoffered as [Hun _].
    injection Hrun as <-.
    unfold quizInvariant, handleSubmitAnswer, answered in *. cbn [withScreen pool screen].
    rewrite Hun in Hstate.
    destruct (selectedAnswer (screen w)) as [a|];
      [destruct (isCorrect a)|]; simpl; rewrite ?Hun;
      repeat split; auto; right; lia.
  - destruct (quizState (screen w)) eqn:Hq; try discriminate Hoffered.
    destruct Hstate as [[Hidle _]|Hstate]; [discriminate Hidle|].
    apply handleNextQuestion_advances in Hrun as (Hscreen & Hpool' & _).
    unfold quizInvariant. rewrite Hscreen, Hpool'.
    unfold answered in Hstate. apply negb_true_iff in Hoffered. rewrite Hoffered in Hstate.
    unfold advance, answered.
    destruct (Z.ltb_spec (Z.of_nat (currentQuestionIndex (screen w)))
                (Z.of_nat (length (currentQuestions (screen w))) - 1)) as [Hlt|Hge]; simpl.
    + repeat split; auto. right. lia.
    + rewrite Hoffered. repeat split; auto.
Qed.

(** X5. Along every sequence of user events that starts with a freshly
    loaded screen, whatever the storage holds, the pool stays a
    rearrangement of the twenty questions, the current question stays
    inside the batch, and the score is at most the number of questions
    answered so far, so it never exceeds the size of the batch, which is
    at most QUESTIONS_PER_BATCH. *)
Theorem dispatchAll_keeps_score_within_batch steps sto w' :
  dispatchAll steps (initialWorld sto) = Normal w' ->
  quizInvariant w' /\
  score (screen w') <= length (currentQuestions (screen w')) /\
  length (currentQuestions (screen w')) <= QUESTIONS_PER_BATCH.
Proof.
  assert (Hinit : quizInvariant (initialWorld sto)).
  { unfold quizInvariant. simpl. repeat split; auto. unfold QUESTIONS_PER_BATCH. lia. }
  revert Hinit. generalize (initialWorld sto) as w.
  induction steps as [|[random e] steps IH]; intros w Hinv Hrun; simpl in Hrun.
  - injection Hrun as <-. split; [exact Hinv|].
    destruct Hinv as (_ & Hlen & [[_ Hscore]|[Hidx Hscore]]); split; auto; try lia.
    unfold answered in Hscore. destruct (isUnanswered _); lia.
  - destruct (dispatch random e w) as [w1|] eqn:Hstep; [|discriminate Hrun].
    apply (IH w1); [|exact Hrun].
    apply (dispatch_preserves_invariant random e w w1 Hinv Hstep).
Qed.

End QuizEngineProperties.

Section QuizEngineSamples.
#[local] Existing Instance Reference.platform.
Import Quiz.

Definition numberAsRecord : World :=
  initialWorld {[ SEEN_QUESTIONS_STORAGE_KEY := "5" ]}.

(** All questions but the first four are recorded. *)
Definition sixteenSeen : World :=
  initialWorld (recordOf (map id (skipn 4 allMockQuestions))).

(** A quiz on the first five questions, the first of them answered,
    with a record that lists another question. *)
Definition firstAnswered : World :=
  withScreen (initialWorld (recordOf ["logic2"])) answeredScreen.

(** The question [gk1]. *)
Definition firstQuestion : QuizQuestion :=
  nth 0 allMockQuestions
    {| id := ""; questionText := ""; options := []; category := ""; difficulty := easy;
       explanation := "" |}.

Definition oneRound : list ((nat -> Q) * Event) :=
  [(sampleRandom, ClickStart); (sampleRandom, ClickOption 1); (sampleRandom, ClickSubmit);
   (sampleRandom, ClickNext); (sampleRandom, ClickSubmit)].

Lemma startNewQuiz_throws_witness :
  startNewQuiz sampleRandom numberAsRecord = Throw TypeError.
Proof.
  apply (startNewQuiz_throws_without_includes sampleRandom numberAsRecord (JNumber "5")).
  - vm_compute. reflexivity.
  - reflexivity.
  - discriminate.
Defined.

Lemma handleNextQuestion_never_duplicates_witness :
  exists w',
    handleNextQuestion firstAnswered = Normal w' /\
    parsedRecord (localStorage w')
      = Normal (JArray [JString "logic2"; JString "gk1"]) /\
    exists w3,
      handleNextQuestion (withScreen w' answeredScreen) = Normal w3 /\
      localStorage w3 = localStorage w'.
Proof.
  destruct (handleNextQuestion_never_duplicates firstAnswered [JString "logic2"] firstQuestion)
    as (w' & Hrun & Hrec & _ & _ & Hagain).
  - vm_compute. reflexivity.
  - reflexivity.
  - reflexivity.
  - vm_compute. reflexivity.
  - exists w'. split; [exact Hrun|]. split; [exact Hrec|].
    apply (Hagain (withScreen w' answeredScreen) firstQuestion); reflexivity.
Defined.

Lemma dispatch_frame_witness :
  exists w',
    dispatch sampleRandom ClickNext firstAnswered = Normal w' /\
    getItem Auth.USER_STORAGE_KEY (localStorage w')
      = getItem Auth.USER_STORAGE_KEY (localStorage firstAnswered) /\
    pool w' = pool firstAnswered.
Proof.
  destruct (dispatch sampleRandom ClickNext firstAnswered) as [w'|] eqn:Hrun.
  - exists w'. split; [reflexivity|].
    destruct (dispatch_frame sampleRandom ClickNext firstAnswered w' Hrun) as [Hsto Hpool].
    split; [apply Hsto; discriminate|apply Hpool; discriminate].
  - vm_compute in Hrun. discriminate Hrun.
Defined.

Lemma advance_stays_in_batch_witness :
  currentQuestionIndex (advance answeredScreen) = 1 /\
  answerStatus (advance answeredScreen) = unanswered /\
  score (advance answeredScreen) = score answeredScreen.
Proof.
  destruct (advance_stays_in_batch answeredScreen) as (_ & Hscore & _ & Hnext & _).
  - vm_compute. lia.
  - destruct Hnext as (Hidx & _ & Hstatus & _); [vm_compute; lia|].
    split; [exact Hidx|]. split; [exact Hstatus|exact Hscore].
Defined.

Lemma startNewQuiz_sorts_pool_witness :
  exists w',
    startNewQuiz sampleRandom sixteenSeen = Normal w' /\
    pool w' = shuffle sampleRandom allMockQuestions /\
    currentQuestions (screen w') = firstn QUESTIONS_PER_BATCH (pool w').
Proof.
  destruct (startNewQuiz sampleRandom sixteenSeen) as [w'|] eqn:Hrun.
  - exists w'. split; [reflexivity|].
    destruct (startNewQuiz_sorts_pool_in_place sampleRandom sixteenSeen
                (JArray (map JString (map id (skipn 4 allMockQuestions)))) w')
      as [Hreset _].
    + vm_compute. reflexivity.
    + reflexivity.
    + exact Hrun.
    + apply Hreset. vm_compute. lia.
  - vm_compute in Hrun. discriminate Hrun.
Defined.

Lemma dispatchAll_score_witness :
  exists w',
    dispatchAll oneRound (initialWorld ∅) = Normal w' /\
    score (screen w') <= length (currentQuestions (screen w')) /\
    length (currentQuestions (screen w')) <= QUESTIONS_PER_BATCH.
Proof.
  destruct (dispatchAll oneRound (initialWorld ∅)) as [w'|] eqn:Hrun.
  - exists w'. split; [reflexivity|].
    apply (dispatchAll_keeps_score_within_batch oneRound ∅ w' Hrun).
  - vm_compute in Hrun. discriminate Hrun.
Defined.

End QuizEngineSamples.

(** * Further properties of the session store *)

Section SessionProperties.
Context `{Platform}.
Import Auth.

(** The state of a store without a session, once mounted. *)
Definition signedOut : AuthState :=
  {| isAuthenticated := false; user := JNull; loading := false |}.

(** X7. After [logout] a restart finds no record: the store starts
    unauthenticated and without a user, whoever was logged in. *)
Theorem logout_then_restart st sto :
  getItem USER_STORAGE_KEY (snd (logout st sto)) = None /\
  restart (snd (logout st sto)) = (signedOut, removeItem USER_STORAGE_KEY sto).
Proof.
  assert (Hnone : getItem USER_STORAGE_KEY (snd (logout st sto)) = None).
  { unfold logout, getItem, removeItem. simpl. apply lookup_delete_eq. }
  split; [exact Hnone|]. rewrite restart_eq, Hnone. reflexivity.
Qed.

(** X8. A restart leaves the storage in a state that the next restart
    reads the same way: restarting twice is restarting once. A record
    that does not parse is removed by the first restart. *)
Theorem restart_idempotent sto :
  restart (snd (restart sto)) = restart sto.
Proof.
  rewrite (restart_eq sto).
  destruct (getItem USER_STORAGE_KEY sto) as [stored|] eqn:Hget; simpl.
  - destruct (truthy stored) eqn:Htruthy; simpl.
    + destruct (JSON_parse stored) as [parsedUser|] eqn:Hparse; simpl.
      * rewrite restart_eq, Hget, Htruthy, Hparse. reflexivity.
      * rewrite restart_eq. unfold getItem, removeItem.
        rewrite lookup_delete_eq. reflexivity.
    + rewrite restart_eq, Hget, Htruthy. reflexivity.
  - rewrite restart_eq, Hget. reflexivity.
Qed.

(** X9. The mount effect does not look at what it parsed: any stored
    string that is not empty and parses, to a user object or not, makes
    the store authenticated with the parsed value as user, and is left
    in the storage. *)
Theorem restart_trusts_any_parsable_record sto stored v :
  getItem USER_STORAGE_KEY sto = Some stored ->
  stored <> "" ->
  JSON_parse stored = Some v ->
  restart sto = ({| isAuthenticated := true; user := v; loading := false |}, sto).
Proof.
  intros Hget Hne Hparse. apply truthy_nonempty in Hne.
  rewrite restart_eq, Hget, Hne, Hparse. reflexivity.
Qed.

(** X10. The record holds one session: a second [login] replaces the
    first, and [logout] after any [login] leaves what [logout] alone
    leaves. *)
Theorem login_replaces_session u1 u2 st sto :
  login u2 (fst (login u1 st sto)) (snd (login u1 st sto)) = login u2 st sto /\
  logout (fst (login u1 st sto)) (snd (login u1 st sto)) = logout st sto.
Proof.
  unfold login, logout, setItem, removeItem. simpl.
  rewrite insert_insert_eq, delete_insert_eq. split; reflexivity.
Qed.

(** X11. The session store reads and writes one key: [login], [logout]
    and a restart leave every other key of the storage as it was. *)
Theorem session_store_touches_only_its_key k u st sto :
  k <> USER_STORAGE_KEY ->
  getItem k (snd (login u st sto)) = getItem k sto /\
  getItem k (snd (logout st sto)) = getItem k sto /\
  getItem k (snd (restart sto)) = getItem k sto.
Proof.
  intros Hk. unfold getItem. repeat split.
  - unfold login, setItem. simpl. apply lookup_insert_ne. congruence.
  - unfold logout, removeItem. simpl. apply lookup_delete_ne. congruence.
  - rewrite restart_eq.
    destruct (getItem USER_STORAGE_KEY sto) as [stored|]; [|reflexivity].
    destruct (truthy stored); [|reflexivity].
    destruct (JSON_parse stored); [reflexivity|].
    unfold removeItem. simpl. apply lookup_delete_ne. congruence.
Qed.

End SessionProperties.

Section SessionSamples.
#[local] Existing Instance Reference.platform.
Import Auth.

Lemma restart_trusts_null_witness :
  restart {[ USER_STORAGE_KEY := "null" ]}
  = ({| isAuthenticated := true; user := JNull; loading := false |},
     {[ USER_STORAGE_KEY := "null" ]}).
Proof.
  apply (restart_trusts_any_parsable_record {[ USER_STORAGE_KEY := "null" ]} "null" JNull).
  - reflexivity.
  - discriminate.
  - reflexivity.
Defined.

Lemma session_store_frame_witness :
  getItem Quiz.SEEN_QUESTIONS_STORAGE_KEY (snd (logout initialState (recordOf ["gk1"])))
  = getItem Quiz.SEEN_QUESTIONS_STORAGE_KEY (recordOf ["gk1"]).
Proof.
  apply (session_store_touches_only_its_key Quiz.SEEN_QUESTIONS_STORAGE_KEY
           JNull initialState (recordOf ["gk1"])).
  discriminate.
Defined.

End SessionSamples.

(** * Further properties of the screens around the stores *)

Section ScreenProperties.
Context `{Platform}.

(** X12. A registration form whose passwords agree and whose fields are
    all filled clears the error, logs the new user in and navigates
    home: the session is authenticated with the user made of the clock,
    the name and the email, the user is persisted, and the protected
    route at the new location renders its children. *)
Theorem handleSubmit_registers_valid_form (HOME LOGIN : string) (now : N)
    (f : Registration.Form) (a : App.AppState) :
  Registration.password f = Registration.confirmPassword f ->
  Registration.name f <> "" ->
  Registration.email f <> "" ->
  Registration.password f <> "" ->
  let f' := fst (Registration.handleSubmit HOME now f) in
  let a' := App.performAll (snd (Registration.handleSubmit HOME now f)) a in
  Registration.error f' = "" /\
  Auth.isAuthenticated (App.auth a') = true /\
  Auth.user (App.auth a') = Registration.mockUser now f /\
  getItem Auth.USER_STORAGE_KEY (App.storage a')
    = Some (JSON_stringify (Registration.mockUser now f)) /\
  App.location a' = HOME /\
  App.ProtectedRoute LOGIN (App.auth a') = App.Children.
Proof.
  intros Hsame Hname Hemail Hpassword.
  apply truthy_nonempty in Hname, Hemail, Hpassword.
  unfold Registration.handleSubmit.
  rewrite Hsame, String.eqb_refl. rewrite <- Hsame. rewrite Hname, Hemail, Hpassword. simpl.
  repeat split. unfold getItem, setItem. apply lookup_insert_eq.
Qed.

(** X13. The login form logs in exactly with the demonstration
    credentials, as the demonstration user; with any other input it sets
    its error message and calls nothing, so that session, storage and
    location stay as they were. *)
Theorem Login_handleSubmit_accepts_only_demo_credentials (HOME : string)
    (f : Login.Form) (a : App.AppState) :
  let f' := fst (Login.handleSubmit HOME f) in
  let calls := snd (Login.handleSubmit HOME f) in
  (Login.email f = "user@example.com" /\ Login.password f = "password" ->
     calls = [App.CallLogin Login.demoUser; App.CallNavigate HOME] /\ Login.error f' = "") /\
  (~ (Login.email f = "user@example.com" /\ Login.password f = "password") ->
     calls = [] /\ truthy (Login.error f') = true /\ App.performAll calls a = a) /\
  (calls <> [] -> Login.email f = "user@example.com" /\ Login.password f = "password").
Proof.
  unfold Login.handleSubmit. simpl.
  destruct (String.eqb_spec (Login.email f) "user@example.com") as [He|He];
    destruct (String.eqb_spec (Login.password f) "password") as [Hp|Hp]; simpl;
    repeat split; try tauto; try congruence; intros [? ?]; congruence.
Qed.

(** X14. The logout button of the sidebar ends the session for good: the
    location is the login route, the protected route redirects there,
    the record is gone, and a restart stays unauthenticated. On a narrow
    window the sidebar is toggled, on a wide one it is left alone. *)
Theorem handleLogout_ends_session (LOGIN : string) (innerWidth : Z)
    (isSidebarOpen : bool) (a : App.AppState) :
  let a' := fst (Sidebar.handleLogout LOGIN innerWidth isSidebarOpen a) in
  let open' := snd (Sidebar.handleLogout LOGIN innerWidth isSidebarOpen a) in
  App.location a' = LOGIN /\
  App.ProtectedRoute LOGIN (App.auth a') = App.Navigate LOGIN /\
  getItem Auth.USER_STORAGE_KEY (App.storage a') = None /\
  Auth.isAuthenticated (fst (Auth.restart (App.storage a'))) = false /\
  ((innerWidth < 768)%Z -> open' = negb isSidebarOpen) /\
  ((768 <= innerWidth)%Z -> open' = isSidebarOpen).
Proof.
  unfold Sidebar.handleLogout, Auth.logout. simpl.
  assert (Hnone : getItem Auth.USER_STORAGE_KEY
                    (removeItem Auth.USER_STORAGE_KEY (App.storage a)) = None).
  { unfold getItem, removeItem. apply lookup_delete_eq. }
  repeat split.
  - exact Hnone.
  - rewrite restart_eq, Hnone. reflexivity.
  - intros Hnarrow. apply Z.ltb_lt in Hnarrow. rewrite Hnarrow. reflexivity.
  - intros Hwide. apply Z.ltb_ge in Hwide. rewrite Hwide. reflexivity.
Qed.

End ScreenProperties.

Section PreferenceProperties.

(** X15. A language chosen on the settings screen or in the sidebar is
    the language the next start begins with, provided its code is not
    the empty string; the empty string is stored too, but the next start
    begins with EN. No other key of the storage is written. *)
Theorem handleLanguageChange_then_initialLanguage (value : string) (sto : Storage) :
  fst (Settings.handleLanguageChange value sto) = value /\
  Sidebar.handleLanguageChange value sto = Settings.handleLanguageChange value sto /\
  Language.initialLanguage (snd (Settings.handleLanguageChange value sto))
    = (if truthy value then value else Language.EN) /\
  (forall k, k <> Language.LANGUAGE_STORAGE_KEY ->
     getItem k (snd (Settings.handleLanguageChange value sto)) = getItem k sto).
Proof.
  unfold Settings.handleLanguageChange, Sidebar.handleLanguageChange, Language.setLanguage,
    Language.initialLanguage, getItem, setItem. simpl.
  repeat split.
  - rewrite lookup_insert_eq. reflexivity.
  - intros k Hk. apply lookup_insert_ne. congruence.
Qed.

(** X16. The notification switch is persisted as the text of its new
    value and read back as that value at the next start; switching twice
    restores both the setting and the stored text. At a start the
    setting is on only if the stored text is exactly [true]. *)
Theorem handleNotificationToggle_persists (notificationsEnabled : bool) (sto : Storage) :
  let after := Settings.handleNotificationToggle notificationsEnabled sto in
  fst after = negb notificationsEnabled /\
  Settings.initialNotificationsEnabled (snd after) = negb notificationsEnabled /\
  Settings.handleNotificationToggle (fst after) (snd after)
    = (notificationsEnabled,
       setItem Settings.NOTIFICATIONS_STORAGE_KEY
         (Settings.String_of_bool notificationsEnabled) sto) /\
  (Settings.initialNotificationsEnabled sto = true <->
   getItem Settings.NOTIFICATIONS_STORAGE_KEY sto = Some "true").
Proof.
  unfold Settings.handleNotificationToggle, Settings.initialNotificationsEnabled,
    getItem, setItem. simpl.
  repeat split.
  - rewrite lookup_insert_eq. destruct notificationsEnabled; reflexivity.
  - rewrite insert_insert_eq, negb_involutive. reflexivity.
  - destruct (sto !! Settings.NOTIFICATIONS_STORAGE_KEY) as [v|]; [|discriminate].
    intros Hv. apply String.eqb_eq in Hv. congruence.
  - intros Hv. rewrite Hv. reflexivity.
Qed.

End PreferenceProperties.

Section ScreenSamples.
#[local] Existing Instance Reference.platform.

Definition validForm : Registration.Form :=
  {| Registration.name := "Asha"; Registration.email := "asha@example.com";
     Registration.password := "secret"; Registration.confirmPassword := "secret";
     Registration.error := "Passwords do not match." |}.

Lemma handleSubmit_registers_witness :
  let a' := App.performAll
              (snd (Registration.handleSubmit "/home" 1730457600000 validForm)) loggedOut in
  Auth.isAuthenticated (App.auth a') = true /\
  App.location a' = "/home" /\
  App.ProtectedRoute "/login" (App.auth a') = App.Children.
Proof.
  destruct (handleSubmit_registers_valid_form "/home" "/login" 1730457600000 validForm loggedOut)
    as (_ & Hauth & _ & _ & Hloc & Hroute).
  - reflexivity.
  - discriminate.
  - discriminate.
  - discriminate.
  - split; [exact Hauth|]. split; [exact Hloc|exact Hroute].
Defined.

End ScreenSamples.

(** * The quiz under a record that cannot be read, and what can be selected *)

Section QuizRecordProperties.
Context `{Platform}.
Import Quiz.

Lemma unseenIn_empty_record l : unseenIn (JArray []) l = l.
Proof.
  unfold unseenIn. induction l as [|q l IH]; simpl; [reflexivity|].
  f_equal. exact IH.
Qed.

(** X17. A record that is not JSON survives the start of a quiz: the
    start reads it as empty, finds the whole pool unseen and so neither
    resets the record nor touches the pool; the Next button of the quiz
    it started then throws the SyntaxError. *)
Theorem corrupt_record_survives_start random w stored :
  Permutation (pool w) allMockQuestions ->
  getItem SEEN_QUESTIONS_STORAGE_KEY (localStorage w) = Some stored ->
  truthy stored = true ->
  JSON_parse stored = None ->
  exists w',
    startNewQuiz random w = Normal w' /\
    localStorage w' = localStorage w /\
    pool w' = pool w /\
    currentQuestions (screen w') = firstn QUESTIONS_PER_BATCH (shuffle random (pool w)) /\
    handleNextQuestion w' = Throw SyntaxError.
Proof.
  intros Hpool Hget Htruthy Hparse.
  assert (Hread : readSeenIds (localStorage w) = Normal (JArray [])).
  { unfold readSeenIds, parseC. rewrite Hget, Htruthy, Hparse. reflexivity. }
  eexists. split; [apply (startNewQuiz_eq random w (JArray []) Hread); reflexivity|].
  rewrite unseenIn_empty_record, (Permutation_length Hpool).
  change (length allMockQuestions <? QUESTIONS_PER_BATCH) with false.
  cbn [localStorage pool screen currentQuestions freshScreen]. repeat split.
  unfold handleNextQuestion, parseC. cbn [localStorage].
  rewrite Hget, Htruthy, Hparse. reflexivity.
Qed.

(** The selected answer is an option of the current question. *)
Definition selectionFromQuestion (s : Screen) : Prop :=
  forall a, selectedAnswer s = Some a ->
    exists q, currentQuestions s !! currentQuestionIndex s = Some q /\ In a (options q).

Lemma dispatch_preserves_selection random e w w' :
  selectionFromQuestion (screen w) ->
  dispatch random e w = Normal w' ->
  selectionFromQuestion (screen w').
Proof.
  intros Hsel Hrun. unfold dispatch in Hrun.
  destruct (offered (screen w) e); [|injection Hrun as <-; exact Hsel].
  destruct e as [|i| |].
  - apply startNewQuiz_returns in Hrun as (_ & _ & part & Hscreen & _).
    rewrite Hscreen. intros a Ha. discriminate Ha.
  - destruct (optionAt (screen w) i) as [o|] eqn:Hopt; injection Hrun as <-; [|exact Hsel].
    cbn [withScreen screen]. unfold handleAnswerSelect.
    destruct (answerStatus (screen w)); try exact Hsel.
    intros a Ha. simpl in Ha. injection Ha as <-. simpl.
    unfold optionAt in Hopt.
    destruct (currentQuestions (screen w) !! currentQuestionIndex (screen w)) as [q|];
      [|discriminate Hopt].
    simpl in Hopt. exists q. split; [reflexivity|].
    apply list_elem_of_In, (list_elem_of_lookup_2 _ i), Hopt.
  - injection Hrun as <-. cbn [withScreen screen]. unfold handleSubmitAnswer.
    destruct (selectedAnswer (screen w)) as [a0|] eqn:Ha0; [|exact Hsel].
    destruct (Hsel a0 Ha0) as (q & Hq & Hin).
    destruct (isCorrect a0); intros a Ha; simpl in *; exists q; split; auto; congruence.
  - apply handleNextQuestion_advances in Hrun as (Hscreen & _ & _).
    rewrite Hscreen. unfold advance.
    destruct (_ <? _)%Z; [intros a Ha; discriminate Ha|exact Hsel].
Qed.

(** X18. Along every sequence of user events from a freshly loaded
    screen, the selected answer, if there is one, is one of the options
    of the current question: no event selects, and so none scores, an
    option of another question. *)
Theorem dispatchAll_selects_from_current_question steps sto w' :
  dispatchAll steps (initialWorld sto) = Normal w' ->
  selectionFromQuestion (screen w').
Proof.
  assert (Hinit : selectionFromQuestion (screen (initialWorld sto))).
  { intros a Ha. discriminate Ha. }
  revert Hinit. generalize (initialWorld sto) as w.
  induction steps as [|[random e] steps IH]; intros w Hsel Hrun; simpl in Hrun.
  - injection Hrun as <-. exact Hsel.
  - destruct (dispatch random e w) as [w1|] eqn:Hstep; [|discriminate Hrun].
    apply (IH w1); [|exact Hrun].
    apply (dispatch_preserves_selection random e w w1 Hsel Hstep).
Qed.

End QuizRecordProperties.

Section QuizRecordSamples.
#[local] Existing Instance Reference.platform.
Import Quiz.

Lemma corrupt_record_survives_witness :
  exists w',
    startNewQuiz sampleRandom corruptRecord = Normal w' /\
    getItem SEEN_QUESTIONS_STORAGE_KEY (localStorage w') = Some "{oops" /\
    handleNextQuestion w' = Throw SyntaxError.
Proof.
  destruct (corrupt_record_survives_start sampleRandom corruptRecord "{oops")
    as (w' & Hrun & Hsto & _ & _ & Hnext).
  - reflexivity.
  - vm_compute. reflexivity.
  - reflexivity.
  - vm_compute. reflexivity.
  - exists w'. split; [exact Hrun|]. split; [rewrite Hsto; vm_compute; reflexivity|exact Hnext].
Defined.

Lemma dispatchAll_selection_witness :
  exists w',
    dispatchAll oneRound (initialWorld ∅) = Normal w' /\
    selectionFromQuestion (screen w').
Proof.
  destruct (dispatchAll oneRound (initialWorld ∅)) as [w'|] eqn:Hrun.
  - exists w'. split; [reflexivity|].
    apply (dispatchAll_selects_from_current_question oneRound ∅ w' Hrun).
  - vm_compute in Hrun. discriminate Hrun.
Defined.

End QuizRecordSamples.
